(** * A second-order recursive low-pass filter (simulator.cpp)

    Shallow embedding of the Arduino sketch: the global arrays [B_COEFFS],
    [A_COEFFS], [x_hist], [y_hist], the global [t], and the function
    [process_filter], which shifts the two histories, stores the new
    sample, accumulates the feed-forward and the feedback terms and records
    the output.

    The sketch computes on C++ [float].  The embedding is written once over
    an interface [Arith] holding the literal [0.0] and the three operations
    the code uses.  Its instance at IEEE-754 binary32, where every [*], [+]
    and [-] rounds on its own to nearest, ties to even (no fused
    multiply-add, no wider intermediate), is the program.  Instances at a
    commutative ring, where nothing rounds, give the recurrence as a
    textbook states it.

    Loop counters are [int] in the sketch; they stay within
    [0 .. FILTER_ORDER + 1], so [nat] holds them.

    [setup] and [loop] are embedded over the same globals, with the calls
    they make into the Arduino core kept as a trace. *)

From Stdlib Require Import ZArith QArith Qabs Qcanon Lia List Ring.
From Stdlib Require Import SpecFloat.
From stdpp Require Import base tactics option list strings.

(** ** Arithmetic of the sample type *)

Class Arith (F : Type) : Type := {
  f_zero : F;
  f_add : F -> F -> F;
  f_sub : F -> F -> F;
  f_mul : F -> F -> F
}.

(** ** Program state: the mutable globals of the sketch *)

(** [#define FILTER_ORDER 2] *)
Definition FILTER_ORDER : nat := 2.

Record globals (F : Type) : Type := Globals {
  B_COEFFS : list F;
  A_COEFFS : list F;
  x_hist : list F;
  y_hist : list F;
  t : F
}.
Arguments Globals {F} _ _ _ _ _.
Arguments B_COEFFS {F} _.
Arguments A_COEFFS {F} _.
Arguments x_hist {F} _.
Arguments y_hist {F} _.
Arguments t {F} _.

Definition set_x_hist {F} (l : list F) (g : globals F) : globals F :=
  Globals (B_COEFFS g) (A_COEFFS g) l (y_hist g) (t g).

Definition set_y_hist {F} (l : list F) (g : globals F) : globals F :=
  Globals (B_COEFFS g) (A_COEFFS g) (x_hist g) l (t g).

(** ** A state-and-failure monad

    A computation reads and writes the globals and either returns a value
    with the new globals or has no defined result: indexing an array
    outside its bounds is undefined behaviour in C++, and is [None] here. *)

Definition M (F A : Type) : Type := globals F -> option (A * globals F).

Definition ret {F A} (a : A) : M F A := fun g => Some (a, g).

Definition bind {F A B} (m : M F A) (k : A -> M F B) : M F B :=
  fun g => match m g with
           | Some (a, g') => k a g'
           | None => None
           end.

Declare Scope prog_scope.
Delimit Scope prog_scope with prog.
Notation "x <- m ;; k" := (bind m (fun x => k))
  (at level 100, m at next level, k at level 200,
   right associativity) : prog_scope.
Notation "m ;; k" := (bind m (fun _ => k))
  (at level 100, k at level 200, right associativity) : prog_scope.
Open Scope prog_scope.

(** [arr[i]] as an rvalue. *)
Definition load {F} (arr : globals F -> list F) (i : nat) : M F F :=
  fun g => match arr g !! i with
           | Some v => Some (v, g)
           | None => None
           end.

(** [x_hist[i] = v] and [y_hist[i] = v]. *)
Definition store_x {F} (i : nat) (v : F) : M F unit :=
  fun g => if decide (i < length (x_hist g))
           then Some (tt, set_x_hist (<[i:=v]> (x_hist g)) g)
           else None.

Definition store_y {F} (i : nat) (v : F) : M F unit :=
  fun g => if decide (i < length (y_hist g))
           then Some (tt, set_y_hist (<[i:=v]> (y_hist g)) g)
           else None.

(** ** process_filter *)

Section Filter.
Context {F : Type} {ops : Arith F}.

(** [for (int i = FILTER_ORDER; i > 0; i--)], entered with [i]. *)
Fixpoint shift_loop (i : nat) : M F unit :=
  match i with
  | O => ret tt
  | S j =>
      xv <- load x_hist j;;
      store_x (S j) xv;;
      yv <- load y_hist j;;
      store_y (S j) yv;;
      shift_loop j
  end.

(** [for (int i = lo; i <= FILTER_ORDER; i++) body], with [n] iterations
    left, the index at [i] and the accumulator [y]. *)
Fixpoint for_up (n i : nat) (body : nat -> F -> M F F) (y : F) : M F F :=
  match n with
  | O => ret y
  | S n' => y' <- body i y;; for_up n' (S i) body y'
  end.

(** [y += B_COEFFS[i] * x_hist[i];] *)
Definition feedforward_body (i : nat) (y : F) : M F F :=
  b <- load B_COEFFS i;;
  xv <- load x_hist i;;
  ret (f_add y (f_mul b xv)).

(** [y -= A_COEFFS[i] * y_hist[i];] *)
Definition feedback_body (i : nat) (y : F) : M F F :=
  a <- load A_COEFFS i;;
  yv <- load y_hist i;;
  ret (f_sub y (f_mul a yv)).

(** Lines 26-31: the shift loop and [x_hist[0] = x]. *)
Definition shift_and_store (x : F) : M F unit :=
  shift_loop FILTER_ORDER;;
  store_x 0 x.

(** Lines 33-41: [float y = 0.0] and the two accumulation loops. *)
Definition compute_output : M F F :=
  y <- for_up (S FILTER_ORDER - 0) 0 feedforward_body f_zero;;
  for_up (S FILTER_ORDER - 1) 1 feedback_body y.

(** Lines 25-45. *)
Definition process_filter (x : F) : M F F :=
  shift_and_store x;;
  y <- compute_output;;
  store_y 0 y;;
  ret y.

(** Successive calls, one per sample, as [loop] issues them; the outputs
    are collected in call order. *)
Fixpoint process_samples (xs : list F) : M F (list F) :=
  match xs with
  | [] => ret []
  | x :: xs' =>
      y <- process_filter x;;
      ys <- process_samples xs';;
      ret (y :: ys)
  end.

(** Static initialisation (lines 4-17 and 23) with the two initialiser
    lists left open: the coefficient arrays take the length of their
    initialisers, the histories are [FILTER_ORDER + 1] zeros. *)
Definition static_init (b a : list F) : globals F :=
  Globals b a (replicate (S FILTER_ORDER) f_zero)
          (replicate (S FILTER_ORDER) f_zero) f_zero.

(** The array bounds the code relies on. *)
Definition well_formed (g : globals F) : Prop :=
  FILTER_ORDER < length (B_COEFFS g) /\
  FILTER_ORDER < length (A_COEFFS g) /\
  length (x_hist g) = S FILTER_ORDER /\
  length (y_hist g) = S FILTER_ORDER.

End Filter.

(** ** The program's number type: IEEE-754 binary32 *)

Abbreviation float32 := spec_float (only parsing).

Definition prec32 : Z := 24.
Definition emax32 : Z := 128.
Definition prec64 : Z := 53.
Definition emax64 : Z := 1024.

#[export] Instance float32_arith : Arith float32 := {|
  f_zero := S754_zero false;
  f_add := SFadd prec32 emax32;
  f_sub := SFsub prec32 emax32;
  f_mul := SFmul prec32 emax32
|}.

(** A literal with six decimals, [num / 10^6] with an optional unary minus,
    is a [double] constant; initialising a [float] with it rounds a second
    time. *)
Definition double_lit (neg : bool) (num : Z) : spec_float :=
  let d := SFdiv prec64 emax64
                 (binary_normalize prec64 emax64 num 0 false)
                 (binary_normalize prec64 emax64 1000000 0 false) in
  if neg then SFopp d else d.

Definition float_of_double (d : spec_float) : float32 :=
  match d with
  | S754_finite s m e => binary_round prec32 emax32 s m e
  | _ => d
  end.

Definition float_lit (neg : bool) (num : Z) : float32 :=
  float_of_double (double_lit neg num).

(** [{ 0.000000, 0.020198, -0.000000 }] *)
Definition B_COEFFS_init : list float32 :=
  [ float_lit false 0; float_lit false 20198; float_lit true 0 ].

(** [{ 1.000000, -1.788622, 0.808858 }] *)
Definition A_COEFFS_init : list float32 :=
  [ float_lit false 1000000; float_lit true 1788622; float_lit false 808858 ].

Definition initial_globals : globals float32 :=
  static_init B_COEFFS_init A_COEFFS_init.

(** ** What one call computes *)

Section Recurrence.
Context {F : Type} {ops : Arith F}.

(** [c[i] * h[i]] *)
Definition term (c h : list F) (i : nat) : F :=
  f_mul (nth i c f_zero) (nth i h f_zero).

(** The sum of [f i] for [i = lo, ..., lo + n - 1], added to (subtracted
    from) [y] one term at a time in index order. *)
Definition add_terms (f : nat -> F) (lo n : nat) (y : F) : F :=
  fold_left (fun acc i => f_add acc (f i)) (seq lo n) y.

Definition sub_terms (f : nat -> F) (lo n : nat) (y : F) : F :=
  fold_left (fun acc i => f_sub acc (f i)) (seq lo n) y.

(** [y = sum_{i=0}^{order} b[i] xs[i] - sum_{i=1}^{order} a[i] ys[i]] *)
Definition recurrence_output (b a xs ys : list F) : F :=
  sub_terms (term a ys) 1 FILTER_ORDER
            (add_terms (term b xs) 0 (S FILTER_ORDER) f_zero).

(** The histories after the shift loop entered with [n]: slot 0 keeps its
    value, slots [1..n] hold what slots [0..n-1] held, later slots are
    untouched. *)
Definition shifted (n : nat) (l : list F) : list F :=
  take 1 l ++ take n l ++ drop (S n) l.

(** [alpha * u + beta * v] *)
Definition lin (alpha beta u v : F) : F :=
  f_add (f_mul alpha u) (f_mul beta v).

(** The sum of [f i] for [i = lo, ..., lo + n - 1] as one value. *)
Definition sum_terms (f : nat -> F) (lo n : nat) : F :=
  fold_right f_add f_zero (map f (seq lo n)).

(** The globals at line 32, after the shift loop and [x_hist[0] = x]. *)
Definition after_shift (x : F) (g : globals F) : globals F :=
  Globals (B_COEFFS g) (A_COEFFS g)
          (x :: take FILTER_ORDER (x_hist g))
          (shifted FILTER_ORDER (y_hist g)) (t g).

(** The value returned by a call, and the globals it leaves. *)
Definition output_of (x : F) (g : globals F) : F :=
  recurrence_output (B_COEFFS g) (A_COEFFS g)
                    (x :: take FILTER_ORDER (x_hist g))
                    (shifted FILTER_ORDER (y_hist g)).

Definition globals_after (x : F) (g : globals F) : globals F :=
  Globals (B_COEFFS g) (A_COEFFS g)
          (x :: take FILTER_ORDER (x_hist g))
          (output_of x g :: take FILTER_ORDER (y_hist g)) (t g).


End Recurrence.

(** ** Reference values for the program on its own coefficients *)

(** The exact value of a finite [float]. *)
Definition Q_of_float (f : float32) : option Q :=
  match f with
  | S754_zero _ => Some 0%Q
  | S754_finite s m e => Some (inject_Z (cond_Zopp s (Zpos m)) * 2 ^ e)%Q
  | _ => None
  end.

(** [|f - q| <= tol] for a finite [f]. *)
Definition within (tol : Q) (f : float32) (q : Q) : bool :=
  match Q_of_float f with
  | Some v => Qle_bool (Qabs (v - q)) tol
  | None => false
  end.

(** The recurrence as the description states it, on rationals:
    [y[n] = sum_{i=0}^{order} b[i] x[n-i] - sum_{i=1}^{order} a[i] y[n-i]],
    with [x[k] = y[k] = 0] for [k < 0].  [stated_recurrence b a xs n] is
    [y[0], ..., y[n-1]]. *)
Definition Qsum (f : nat -> Q) (lo n : nat) : Q :=
  fold_right Qplus 0%Q (map f (seq lo n)).

Definition delayed (s : list Q) (n i : nat) : Q :=
  if (i <=? n)%nat then nth (n - i) s 0%Q else 0%Q.

Fixpoint stated_recurrence (b a xs : list Q) (n : nat) : list Q :=
  match n with
  | O => []
  | S m =>
      let ys := stated_recurrence b a xs m in
      ys ++ [ (Qsum (fun i => nth i b 0 * delayed xs m i) 0 (S FILTER_ORDER)
               - Qsum (fun i => nth i a 0 * delayed ys m i) 1 FILTER_ORDER)%Q ]
  end.

(** The coefficients as decimals. *)
Definition B_decimal : list Q := [0; 20198 # 1000000; 0]%Q.
Definition A_decimal : list Q :=
  [1; - (1788622 # 1000000); 808858 # 1000000]%Q.

(** [1.0] *)
Definition one32 : float32 := float_lit false 1000000.
Definition impulse : list float32 := [one32; f_zero; f_zero; f_zero; f_zero].
Definition impulse_decimal : list Q := [1; 0; 0; 0; 0]%Q.
Definition tolerance : Q := 1 # 1000000.

(** Where [double] is itself binary32 (AVR), the literals round once, to
    the same numbers. *)
Definition single_lit (neg : bool) (num : Z) : float32 :=
  let d := SFdiv prec32 emax32
                 (binary_normalize prec32 emax32 num 0 false)
                 (binary_normalize prec32 emax32 1000000 0 false) in
  if neg then SFopp d else d.

Inductive construct_error : Type := ConfigurationError.

Definition is_finite32 (f : float32) : bool :=
  match f with
  | S754_zero _ | S754_finite _ _ _ => true
  | _ => false
  end.

Definition is_zero32 (f : float32) : bool :=
  match f with
  | S754_zero _ => true
  | _ => false
  end.

(** The constructor as the description words it, for comparison: it refuses
    coefficient sequences whose length is not [order + 1] and a zero
    [A[0]].  The sketch has no counterpart; its arrays are initialised
    statically, which is [static_init]. *)
Definition Construct_as_described (order : nat) (b a : list float32)
  : construct_error + globals float32 :=
  if decide (length b = S order /\ length a = S order) then
    match a with
    | a0 :: _ =>
        if is_zero32 a0 then inl ConfigurationError
        else inr (Globals b a (replicate (S order) f_zero)
                          (replicate (S order) f_zero) f_zero)
    | [] => inl ConfigurationError
    end
  else inl ConfigurationError.

(** ** Exact values: the canonical rationals *)


(** The exact value of a [float]; a float that is not finite has none, and
    is given 0. *)
Definition value32 (f : float32) : Qc :=
  match Q_of_float f with
  | Some q => Q2Qc q
  | None => 0%Qc
  end.







(** A state in mid-run: the globals after the impulse. *)
Definition sample_globals : globals float32 :=
  Globals B_COEFFS_init A_COEFFS_init
          [S754_zero false; S754_zero false; S754_zero false]
          [S754_finite false 15336385 (-28); S754_finite false 12959928 (-28);
           S754_finite false 9697657 (-28)]
          (S754_zero false).

(** The same arrays as [sample_globals] at a later time [t]. *)
Definition sample_globals_later : globals float32 :=
  Globals (B_COEFFS sample_globals) (A_COEFFS sample_globals)
          (x_hist sample_globals) (y_hist sample_globals) one32.

(** ** The rest of the sketch: [setup] and [loop]

    What crosses into the Arduino core is kept as a list of calls, in call
    order.  The core's own parts stay open: the format of [double] on the
    board ([dprec], [demax]: binary64 on ARM and ESP32, binary32 on AVR),
    the macro [PI], and the library's [sin]. *)

Inductive core_call : Type :=
| Serial_begin (baud : Z)
| Serial_print_str (s : string)
| Serial_print_num (d : spec_float)
| Serial_println_str (s : string)
| Serial_println_num (d : spec_float)
| Delay (ms : Z).

Record sketch : Type := Sketch {
  vars : globals float32;
  calls : list core_call
}.

(** [t = v] *)
Definition set_t (v : float32) (g : globals float32) : globals float32 :=
  Globals (B_COEFFS g) (A_COEFFS g) (x_hist g) (y_hist g) v.

Section SketchCode.
Variables (dprec demax : Z) (PI : spec_float)
          (sin : spec_float -> spec_float).

(** An integer-valued [double] constant, and a [float] widened to
    [double]. *)
Definition double_of_Z (n : Z) : spec_float :=
  binary_normalize dprec demax n 0 false.

Definition double_of_float (f : float32) : spec_float :=
  match f with
  | S754_finite s m e => binary_round dprec demax s m e
  | _ => f
  end.

(** [const float fs = 20000.0;] *)
Definition fs : float32 := float_of_double (double_of_Z 20000).

(** [const float dt = 1.0 / fs;], the quotient formed in [double]. *)
Definition dt : float32 :=
  float_of_double (SFdiv dprec demax (double_of_Z 1) (double_of_float fs)).

(** [const float test_freq = 1000.0;] *)
Definition test_freq : float32 := float_of_double (double_of_Z 1000).

(** [sin(2 * PI * test_freq * t)], the product formed in [double], the
    result stored in a [float]. *)
Definition input_sample (tv : float32) : float32 :=
  float_of_double
    (sin (SFmul dprec demax
            (SFmul dprec demax (SFmul dprec demax (double_of_Z 2) PI)
                   (double_of_float test_freq))
            (double_of_float tv))).

(** The calls of one pass through [loop], for the sample [x] and the
    output [y]. *)
Definition loop_calls (x y : float32) : list core_call :=
  [ Serial_print_str "Input:";
    Serial_print_num (SFadd dprec demax (double_of_float x) (double_of_Z 2));
    Serial_print_str ",";
    Serial_print_str "Output:";
    Serial_println_num (double_of_float y);
    Delay 5 ].

(** Lines 53-65; [None] when [process_filter] has no defined result. *)
Definition loop (s : sketch) : option sketch :=
  let input_signal := input_sample (t (vars s)) in
  match process_filter input_signal (vars s) with
  | None => None
  | Some (output_signal, g) =>
      Some (Sketch (set_t (f_add (t g) dt) g)
                   (calls s ++ loop_calls input_signal output_signal))
  end.

(** Lines 47-51. *)
Definition setup (s : sketch) : sketch :=
  Sketch (vars s)
         (calls s ++ [ Serial_begin 115200; Delay 1000;
                       Serial_println_str "2nd Order LPF Simulation Started" ]).

(** [n] passes through [loop], one after the other. *)
Fixpoint loops (n : nat) (s : sketch) : option sketch :=
  match n with
  | O => Some s
  | S n' =>
      match loop s with
      | Some s' => loops n' s'
      | None => None
      end
  end.

(** [t] after [k] passes, and the samples of the first [n] passes. *)
Definition time_after (t0 : float32) (k : nat) : float32 :=
  Nat.iter k (fun tv => f_add tv dt) t0.

Definition samples_from (t0 : float32) (n : nat) : list float32 :=
  map (fun k => input_sample (time_after t0 k)) (seq 0 n).

End SketchCode.


(** [sample_globals] with other values in the last slot of each history. *)
Definition sample_globals_other_tail : globals float32 :=
  Globals (B_COEFFS sample_globals) (A_COEFFS sample_globals)
          (<[FILTER_ORDER:=one32]> (x_hist sample_globals))
          (<[FILTER_ORDER:=one32]> (y_hist sample_globals))
          (t sample_globals).

(** The sketch with its clock at [1024.0]. *)
Definition stuck_sketch : sketch :=
  Sketch (set_t (S754_finite false 8388608 (-13)) initial_globals) [].

(** A board with binary64 [double], [PI] rounded to it, and a stand-in for
    [sin]. *)
Definition PI64 : spec_float := S754_finite false 7074237752028440 (-51).
Definition sin_stand_in (d : spec_float) : spec_float := d.

Arguments FILTER_ORDER : simpl never.

Section Correctness.
Context {F : Type} {ops : Arith F}.
Implicit Types (g : globals F) (l : list F) (x y v : F).

Lemma globals_eta g :
  Globals (B_COEFFS g) (A_COEFFS g) (x_hist g) (y_hist g) (t g) = g.
Proof. by destruct g. Qed.

Lemma load_Some (arr : globals F -> list F) i g v :
  arr g !! i = Some v -> load arr i g = Some (v, g).
Proof. intros H. unfold load. by rewrite H. Qed.

Lemma store_x_Some i v g :
  i < length (x_hist g) ->
  store_x i v g = Some (tt, set_x_hist (<[i:=v]> (x_hist g)) g).
Proof. intros H. unfold store_x. by rewrite decide_True. Qed.

Lemma store_y_Some i v g :
  i < length (y_hist g) ->
  store_y i v g = Some (tt, set_y_hist (<[i:=v]> (y_hist g)) g).
Proof. intros H. unfold store_y. by rewrite decide_True. Qed.

Lemma bind_Some {A B} (m : M F A) (k : A -> M F B) g a g' :
  m g = Some (a, g') -> bind m k g = k a g'.
Proof. intros H. unfold bind. by rewrite H. Qed.

(** Run the first command of a sequence, given its result. *)
Ltac run_with H := rewrite (bind_Some _ _ _ _ _ H).

(** *** The shift loop *)

Lemma shifted_0 l : shifted 0 l = l.
Proof. unfold shifted. rewrite take_0. simpl. apply take_drop. Qed.

Lemma shifted_S j l v :
  l !! j = Some v -> S j < length l ->
  shifted j (<[S j:=v]> l) = shifted (S j) l.
Proof.
  intros Hj Hlen. unfold shifted.
  rewrite (take_insert_ge l 1 (S j)) by lia.
  rewrite (take_insert_ge l j (S j)) by lia.
  rewrite (take_S_r l j v) by done.
  rewrite <- (assoc_L (++)). do 2 f_equal. simpl.
  rewrite drop_insert_ge by lia.
  replace (S j - S j) with 0 by lia.
  destruct (lookup_lt_is_Some_2 l (S j) Hlen) as [w Hw].
  rewrite (drop_S l w (S j)) by done. done.
Qed.

Lemma length_shifted n l : n < length l -> length (shifted n l) = length l.
Proof.
  intros H. unfold shifted.
  rewrite !length_app, !length_take, length_drop. lia.
Qed.

Lemma shift_loop_spec n : forall g,
  n < length (x_hist g) -> n < length (y_hist g) ->
  shift_loop n g =
    Some (tt, Globals (B_COEFFS g) (A_COEFFS g) (shifted n (x_hist g))
                      (shifted n (y_hist g)) (t g)).
Proof.
  induction n as [|j IH]; intros g Hx Hy.
  - simpl. unfold ret. by rewrite !shifted_0, globals_eta.
  - destruct (lookup_lt_is_Some_2 (x_hist g) j) as [xv Hxv]; [lia|].
    destruct (lookup_lt_is_Some_2 (y_hist g) j) as [yv Hyv]; [lia|].
    cbn [shift_loop].
    run_with (load_Some x_hist j g xv Hxv).
    run_with (store_x_Some (S j) xv g Hx).
    run_with (load_Some y_hist j (set_x_hist (<[S j:=xv]> (x_hist g)) g)
                        yv Hyv).
    run_with (store_y_Some (S j) yv
                           (set_x_hist (<[S j:=xv]> (x_hist g)) g) Hy).
    rewrite IH; simpl; rewrite ?length_insert; try lia.
    by rewrite (shifted_S j _ xv), (shifted_S j _ yv).
Qed.

(** *** The accumulation loops *)

Lemma for_up_fold (op : F -> F -> F) (f : nat -> F)
      (body : nat -> F -> M F F) g n : forall i y,
  (forall k acc, i <= k < i + n -> body k acc g = Some (op acc (f k), g)) ->
  for_up n i body y g =
    Some (fold_left (fun acc k => op acc (f k)) (seq i n) y, g).
Proof.
  induction n as [|n IH]; intros i y Hbody; [done|].
  cbn [for_up seq fold_left].
  run_with (Hbody i y ltac:(lia)).
  apply IH. intros k acc Hk. apply Hbody. lia.
Qed.

Lemma feedforward_body_spec g i y :
  i < length (B_COEFFS g) -> i < length (x_hist g) ->
  feedforward_body i y g =
    Some (f_add y (term (B_COEFFS g) (x_hist g) i), g).
Proof.
  intros HB Hx.
  destruct (lookup_lt_is_Some_2 _ _ HB) as [b Hb].
  destruct (lookup_lt_is_Some_2 _ _ Hx) as [xv Hxv].
  unfold feedforward_body, term.
  run_with (load_Some B_COEFFS i g b Hb).
  run_with (load_Some x_hist i g xv Hxv).
  by rewrite (nth_lookup_Some _ _ _ _ Hb), (nth_lookup_Some _ _ _ _ Hxv).
Qed.

Lemma feedback_body_spec g i y :
  i < length (A_COEFFS g) -> i < length (y_hist g) ->
  feedback_body i y g =
    Some (f_sub y (term (A_COEFFS g) (y_hist g) i), g).
Proof.
  intros HA Hy.
  destruct (lookup_lt_is_Some_2 _ _ HA) as [a Ha].
  destruct (lookup_lt_is_Some_2 _ _ Hy) as [yv Hyv].
  unfold feedback_body, term.
  run_with (load_Some A_COEFFS i g a Ha).
  run_with (load_Some y_hist i g yv Hyv).
  by rewrite (nth_lookup_Some _ _ _ _ Ha), (nth_lookup_Some _ _ _ _ Hyv).
Qed.

(** The two loops leave the globals alone and return the recurrence's
    value on the current arrays. *)
Lemma compute_output_spec g :
  FILTER_ORDER < length (B_COEFFS g) ->
  FILTER_ORDER < length (A_COEFFS g) ->
  FILTER_ORDER < length (x_hist g) ->
  FILTER_ORDER < length (y_hist g) ->
  compute_output g =
    Some (recurrence_output (B_COEFFS g) (A_COEFFS g)
                            (x_hist g) (y_hist g), g).
Proof.
  intros HB HA Hx Hy. unfold compute_output, recurrence_output.
  replace (S FILTER_ORDER - 0) with (S FILTER_ORDER) by lia.
  replace (S FILTER_ORDER - 1) with FILTER_ORDER by lia.
  run_with (for_up_fold f_add (term (B_COEFFS g) (x_hist g))
              feedforward_body g (S FILTER_ORDER) 0 f_zero
              ltac:(intros; apply feedforward_body_spec; lia)).
  apply (for_up_fold f_sub (term (A_COEFFS g) (y_hist g))).
  intros; apply feedback_body_spec; lia.
Qed.

(** With [FILTER_ORDER = 2], written out. *)
Lemma recurrence_output_order_2 (b0 b1 b2 a0 a1 a2 x0 x1 x2 y0 y1 y2 : F) :
  recurrence_output [b0; b1; b2] [a0; a1; a2] [x0; x1; x2] [y0; y1; y2] =
    f_sub (f_sub (f_add (f_add (f_add f_zero (f_mul b0 x0)) (f_mul b1 x1))
                        (f_mul b2 x2))
                 (f_mul a1 y1))
          (f_mul a2 y2).
Proof. reflexivity. Qed.

(** *** One call *)

Lemma insert_0_shifted l v :
  length l = S FILTER_ORDER ->
  <[0:=v]> (shifted FILTER_ORDER l) = v :: take FILTER_ORDER l.
Proof.
  intros Hl. unfold shifted. destruct l as [|a l]; [done|].
  rewrite (drop_ge (a :: l)) by lia.
  by rewrite (right_id_L [] (++)).
Qed.

Lemma shift_and_store_spec x g :
  well_formed g -> shift_and_store x g = Some (tt, after_shift x g).
Proof.
  intros (HB & HA & Hx & Hy). unfold shift_and_store.
  run_with (shift_loop_spec FILTER_ORDER g ltac:(lia) ltac:(lia)).
  rewrite store_x_Some; simpl; [|rewrite length_shifted; lia].
  unfold set_x_hist, after_shift; simpl. by rewrite insert_0_shifted.
Qed.

Lemma well_formed_after_shift x g :
  well_formed g -> well_formed (after_shift x g).
Proof.
  intros (HB & HA & Hx & Hy). unfold well_formed, after_shift; simpl.
  rewrite length_take, length_shifted by lia. lia.
Qed.

Lemma globals_after_store x g :
  well_formed g ->
  globals_after x g =
    set_y_hist (<[0:=output_of x g]> (y_hist (after_shift x g)))
               (after_shift x g).
Proof.
  intros (_ & _ & _ & Hy).
  unfold globals_after, set_y_hist, after_shift;
    cbn [B_COEFFS A_COEFFS x_hist y_hist t].
  by rewrite insert_0_shifted.
Qed.

Lemma process_filter_spec x g :
  well_formed g ->
  process_filter x g = Some (output_of x g, globals_after x g).
Proof.
  intros Hwf. unfold process_filter.
  run_with (shift_and_store_spec x g Hwf).
  destruct (well_formed_after_shift x g Hwf) as (HB & HA & Hx & Hy).
  run_with (compute_output_spec (after_shift x g)
              ltac:(lia) ltac:(lia) ltac:(lia) ltac:(lia)).
  run_with (store_y_Some 0 (output_of x g) (after_shift x g) ltac:(lia)).
  unfold ret. by rewrite globals_after_store.
Qed.

Lemma well_formed_globals_after x g :
  well_formed g -> well_formed (globals_after x g).
Proof.
  intros (HB & HA & Hx & Hy). unfold well_formed, globals_after; simpl.
  rewrite !length_take. lia.
Qed.

(** *** What the computation reads *)

Lemma lookup_shifted_0 n l : shifted n l !! 0 = l !! 0.
Proof. unfold shifted. by destruct l, n. Qed.

Lemma lookup_shifted n l i :
  n < length l -> 1 <= i <= n -> shifted n l !! i = l !! (i - 1).
Proof.
  intros Hl Hi. unfold shifted. destruct l as [|a l]; [simpl in Hl; lia|].
  change (take 1 (a :: l)) with [a]. simpl in Hl.
  rewrite lookup_app_r by (simpl; lia). simpl.
  rewrite lookup_app_l by (rewrite length_take; simpl; lia).
  rewrite lookup_take_lt by lia. done.
Qed.

Lemma lookup_pushed x l i :
  1 <= i <= FILTER_ORDER ->
  (x :: take FILTER_ORDER l) !! i = l !! (i - 1).
Proof.
  intros Hi. destruct i as [|i]; [lia|]. simpl.
  rewrite Nat.sub_0_r. apply lookup_take_lt. lia.
Qed.

Lemma add_terms_ext (f f' : nat -> F) n : forall lo y,
  (forall i, lo <= i < lo + n -> f i = f' i) ->
  add_terms f lo n y = add_terms f' lo n y.
Proof.
  unfold add_terms. induction n as [|n IH]; intros lo y Hf; [done|].
  cbn [seq fold_left]. rewrite (Hf lo) by lia.
  apply IH. intros i Hi. apply Hf. lia.
Qed.

Lemma sub_terms_ext (f f' : nat -> F) n : forall lo y,
  (forall i, lo <= i < lo + n -> f i = f' i) ->
  sub_terms f lo n y = sub_terms f' lo n y.
Proof.
  unfold sub_terms. induction n as [|n IH]; intros lo y Hf; [done|].
  cbn [seq fold_left]. rewrite (Hf lo) by lia.
  apply IH. intros i Hi. apply Hf. lia.
Qed.

Lemma term_ext (c c' h h' : list F) i :
  c !! i = c' !! i -> h !! i = h' !! i -> term c h i = term c' h' i.
Proof. intros Hc Hh. unfold term. by rewrite !nth_lookup, Hc, Hh. Qed.

(** The feed-forward sum reads [b] and [xs] at [0..order], the feedback
    sum reads [a] and [ys] at [1..order], and nothing else is read. *)
Lemma recurrence_output_ext (b b' a a' xs xs' ys ys' : list F) :
  (forall i, i <= FILTER_ORDER -> b !! i = b' !! i /\ xs !! i = xs' !! i) ->
  (forall i, 1 <= i <= FILTER_ORDER ->
             a !! i = a' !! i /\ ys !! i = ys' !! i) ->
  recurrence_output b a xs ys = recurrence_output b' a' xs' ys'.
Proof.
  intros Hff Hfb. unfold recurrence_output.
  rewrite (add_terms_ext (term b xs) (term b' xs')).
  - apply sub_terms_ext. intros i Hi.
    destruct (Hfb i) as [Ha Hy]; [lia|]. by apply term_ext.
  - intros i Hi. destruct (Hff i) as [Hb Hx]; [lia|]. by apply term_ext.
Qed.

Lemma compute_output_overwrite_0 g v :
  FILTER_ORDER < length (B_COEFFS g) ->
  FILTER_ORDER < length (A_COEFFS g) ->
  FILTER_ORDER < length (x_hist g) ->
  FILTER_ORDER < length (y_hist g) ->
  compute_output (set_y_hist (<[0:=v]> (y_hist g)) g) =
    Some (recurrence_output (B_COEFFS g) (A_COEFFS g)
                            (x_hist g) (y_hist g),
          set_y_hist (<[0:=v]> (y_hist g)) g).
Proof.
  intros HB HA Hx Hy.
  rewrite compute_output_spec; unfold set_y_hist; cbn [B_COEFFS A_COEFFS
    x_hist y_hist]; rewrite ?length_insert; try done.
  do 2 f_equal. apply recurrence_output_ext; [done|].
  intros i Hi. split; [done|]. apply list_lookup_insert_ne. lia.
Qed.

Lemma output_of_pushed x g v :
  well_formed g ->
  output_of x g =
    recurrence_output (B_COEFFS g) (A_COEFFS g)
                      (x :: take FILTER_ORDER (x_hist g))
                      (v :: take FILTER_ORDER (y_hist g)).
Proof.
  intros (HB & HA & Hx & Hy). unfold output_of.
  apply recurrence_output_ext; [done|]. intros i Hi. split; [done|].
  rewrite lookup_shifted, lookup_pushed by lia. done.
Qed.

End Correctness.

(** ** The claims about one call, on the program's [float] arithmetic *)

Section OneCall.
Implicit Types (x v : float32) (g : globals float32).

(** C1.  For every sample [x] and every state with arrays of the declared
    sizes, the call returns the feed-forward terms [B[i] * x_hist[i]],
    [i = 0..order], added to [0.0] in index order, then the feedback terms
    [A[i] * y_hist[i]], [i = 1..order], subtracted in index order, on the
    histories as they stand after the shift, with [x] at [x_hist[0]];
    there is no [A[0]] term. *)
Theorem C1_output_is_recurrence x g :
  well_formed g ->
  exists g1 y g',
    shift_and_store x g = Some (tt, g1) /\
    x_hist g1 !! 0 = Some x /\
    process_filter x g = Some (y, g') /\
    y = sub_terms (term (A_COEFFS g) (y_hist g1)) 1 FILTER_ORDER
          (add_terms (term (B_COEFFS g) (x_hist g1)) 0 (S FILTER_ORDER)
                     f_zero).
Proof.
  intros Hwf.
  exists (after_shift x g), (output_of x g), (globals_after x g).
  split; [by apply shift_and_store_spec|].
  split; [done|].
  split; [by apply process_filter_spec|done].
Qed.

(** C2.  The shift gives slot [i], for [i = order, ..., 1], the value
    slot [i - 1] held at entry, in both histories, which keep their
    length; [x] is in [x_hist[0]] and the previous output still in
    [y_hist[0]] when the output is computed, and the call ends by writing
    the output to [y_hist[0]]. *)
Theorem C2_shift_then_compute_then_store x g :
  well_formed g ->
  exists g1 y g',
    shift_and_store x g = Some (tt, g1) /\
    (forall i, 1 <= i <= FILTER_ORDER ->
               x_hist g1 !! i = x_hist g !! (i - 1) /\
               y_hist g1 !! i = y_hist g !! (i - 1)) /\
    x_hist g1 !! 0 = Some x /\
    y_hist g1 !! 0 = y_hist g !! 0 /\
    length (x_hist g1) = S FILTER_ORDER /\
    length (y_hist g1) = S FILTER_ORDER /\
    compute_output g1 = Some (y, g1) /\
    process_filter x g = Some (y, g') /\
    g' = set_y_hist (<[0:=y]> (y_hist g1)) g1.
Proof.
  intros Hwf.
  pose proof (well_formed_after_shift x g Hwf) as (HB1 & HA1 & Hx1 & Hy1).
  destruct Hwf as (HB & HA & Hx & Hy).
  assert (Hwf : well_formed g) by done.
  exists (after_shift x g), (output_of x g), (globals_after x g).
  split; [by apply shift_and_store_spec|].
  split.
  { intros i Hi. simpl.
    by rewrite lookup_pushed, lookup_shifted by lia. }
  split; [done|].
  split; [apply lookup_shifted_0|].
  do 2 (split; [done|]).
  split.
  { rewrite compute_output_spec by lia. done. }
  split; [by apply process_filter_spec|].
  by apply globals_after_store.
Qed.

(** C6.  In the call that follows a call returning [y0], [y_hist[0]]
    holds [y0] while the sums are formed, and the sums do not read it:
    with any value [v] put there instead, they return the same output. *)
Theorem C6_output_ignores_slot_0 x0 x v g :
  well_formed g ->
  exists y0 g' g1 y,
    process_filter x0 g = Some (y0, g') /\
    shift_and_store x g' = Some (tt, g1) /\
    y_hist g1 !! 0 = Some y0 /\
    compute_output g1 = Some (y, g1) /\
    compute_output (set_y_hist (<[0:=v]> (y_hist g1)) g1) =
      Some (y, set_y_hist (<[0:=v]> (y_hist g1)) g1) /\
    process_filter x g' = Some (y, set_y_hist (<[0:=y]> (y_hist g1)) g1).
Proof.
  intros Hwf.
  pose proof (well_formed_globals_after x0 g Hwf) as Hwf'.
  pose proof (well_formed_after_shift x _ Hwf') as (HB1 & HA1 & Hx1 & Hy1).
  exists (output_of x0 g), (globals_after x0 g),
         (after_shift x (globals_after x0 g)),
         (output_of x (globals_after x0 g)).
  split; [by apply process_filter_spec|].
  split; [by apply shift_and_store_spec|].
  split; [done|].
  split; [by rewrite compute_output_spec by lia|].
  split.
  { rewrite compute_output_overwrite_0 by lia. done. }
  rewrite process_filter_spec by done.
  by rewrite (globals_after_store x (globals_after x0 g)).
Qed.

(** C8.  Two calls with the same sample, from states that hold the same
    coefficients and the same two histories, return the same output and
    leave the same two histories. *)
Theorem C8_deterministic x g1 g2 :
  well_formed g1 ->
  B_COEFFS g1 = B_COEFFS g2 -> A_COEFFS g1 = A_COEFFS g2 ->
  x_hist g1 = x_hist g2 -> y_hist g1 = y_hist g2 ->
  exists y g1' g2',
    process_filter x g1 = Some (y, g1') /\
    process_filter x g2 = Some (y, g2') /\
    x_hist g1' = x_hist g2' /\ y_hist g1' = y_hist g2'.
Proof.
  intros Hwf1 HB HA Hx Hy.
  assert (Hwf2 : well_formed g2).
  { unfold well_formed in *. by rewrite <- HB, <- HA, <- Hx, <- Hy. }
  exists (output_of x g1), (globals_after x g1), (globals_after x g2).
  assert (Hout : output_of x g2 = output_of x g1).
  { unfold output_of. by rewrite HB, HA, Hx, Hy. }
  split; [by apply process_filter_spec|].
  split; [by rewrite process_filter_spec, Hout|].
  unfold globals_after; simpl. by rewrite Hout, Hx, Hy.
Qed.

(** C9.  A call succeeds and leaves both coefficient arrays and [t] as
    they were: only [x_hist] and [y_hist] are written. *)
Theorem C9_only_histories_change x g :
  well_formed g ->
  exists y g',
    process_filter x g = Some (y, g') /\
    B_COEFFS g' = B_COEFFS g /\
    A_COEFFS g' = A_COEFFS g /\
    t g' = t g.
Proof.
  intros Hwf. exists (output_of x g), (globals_after x g).
  split; [by apply process_filter_spec|done].
Qed.

(** C10.  Overwriting [A_COEFFS[0]] with any value changes neither the
    output of a call nor the globals it leaves, [A_COEFFS[0]] itself
    apart. *)
Theorem C10_leading_feedback_coefficient_unread x v g :
  well_formed g ->
  exists y g',
    process_filter x g = Some (y, g') /\
    process_filter x (Globals (B_COEFFS g) (<[0:=v]> (A_COEFFS g))
                              (x_hist g) (y_hist g) (t g)) =
      Some (y, Globals (B_COEFFS g') (<[0:=v]> (A_COEFFS g'))
                       (x_hist g') (y_hist g') (t g')).
Proof.
  intros Hwf. exists (output_of x g), (globals_after x g).
  split; [by apply process_filter_spec|].
  set (g2 := Globals (B_COEFFS g) (<[0:=v]> (A_COEFFS g))
                     (x_hist g) (y_hist g) (t g)).
  assert (Hwf2 : well_formed g2).
  { destruct Hwf as (HB & HA & Hx & Hy).
    unfold well_formed, g2; cbn [B_COEFFS A_COEFFS x_hist y_hist].
    by rewrite length_insert. }
  assert (Hout : output_of x g2 = output_of x g).
  { unfold output_of, g2; cbn [B_COEFFS A_COEFFS x_hist y_hist].
    apply recurrence_output_ext; [done|]. intros i Hi. split; [|done].
    apply list_lookup_insert_ne. lia. }
  rewrite process_filter_spec by done.
  unfold globals_after. by rewrite Hout.
Qed.

End OneCall.

(** ** The recurrence in exact arithmetic

    Here the sample type is a commutative ring with Leibniz equality: the
    integers, the canonical rationals or the reals, but not [float32],
    whose operations round. *)

Section ExactArithmetic.
Context {F : Type} {ops : Arith F}.
Variables (f_one : F) (f_opp : F -> F).
Hypothesis F_ring :
  ring_theory f_zero f_one f_add f_mul f_sub f_opp (@eq F).
Add Ring F_ring_inst : F_ring.

Implicit Types (g : globals F) (l b a xs ys : list F) (alpha beta : F).


(** Term-by-term accumulation agrees with the closed sums. *)
Lemma add_terms_sum (f : nat -> F) n : forall lo y,
  add_terms f lo n y = f_add y (sum_terms f lo n).
Proof.
  unfold add_terms, sum_terms.
  induction n as [|n IH]; intros lo y; cbn [seq fold_left map fold_right].
  - ring.
  - rewrite IH. ring.
Qed.

Lemma sub_terms_sum (f : nat -> F) n : forall lo y,
  sub_terms f lo n y = f_sub y (sum_terms f lo n).
Proof.
  unfold sub_terms, sum_terms.
  induction n as [|n IH]; intros lo y; cbn [seq fold_left map fold_right].
  - ring.
  - rewrite IH. ring.
Qed.

(** In exact arithmetic the output is the difference of the two sums. *)
Lemma recurrence_output_exact b a xs ys :
  recurrence_output b a xs ys =
    f_sub (sum_terms (term b xs) 0 (S FILTER_ORDER))
          (sum_terms (term a ys) 1 FILTER_ORDER).
Proof.
  unfold recurrence_output. rewrite sub_terms_sum, add_terms_sum. ring.
Qed.

(** *** Linearity *)










End ExactArithmetic.

(** ** Runs never fail on arrays of the declared sizes *)

Section Runs.
Context {F : Type} {ops : Arith F}.

Lemma well_formed_static_init (b a : list F) :
  FILTER_ORDER < length b -> FILTER_ORDER < length a ->
  well_formed (static_init b a).
Proof.
  intros Hb Ha.
  unfold well_formed, static_init; cbn [B_COEFFS A_COEFFS x_hist y_hist].
  by rewrite length_replicate.
Qed.

Lemma process_samples_total (xs : list F) : forall g,
  well_formed g ->
  exists ys g',
    process_samples xs g = Some (ys, g') /\
    length ys = length xs /\ well_formed g'.
Proof.
  induction xs as [|x xs IH]; intros g Hwf.
  - by exists [], g.
  - destruct (IH _ (well_formed_globals_after x g Hwf))
      as (ys & g' & Hrun & Hlen & Hwf').
    exists (output_of x g :: ys), g'. cbn [process_samples].
    rewrite (bind_Some _ _ _ _ _ (process_filter_spec x g Hwf)).
    rewrite (bind_Some _ _ _ _ _ Hrun).
    split; [done|]. split; [|done]. simpl. by rewrite Hlen.
Qed.

End Runs.

(** ** Linearity of the [float] program, where nothing rounds *)


Lemma length_map_value (l : list float32) : length (map value32 l) = length l.
Proof. apply length_map. Qed.


(** ** Zero samples on zero histories, for any finite coefficients *)

Lemma mul_finite_zero (c : float32) (s : bool) :
  is_finite32 c = true -> is_zero32 (f_mul c (S754_zero s)) = true.
Proof. by destruct c. Qed.

Lemma add_zero_zero (z : float32) :
  is_zero32 z = true -> f_add (S754_zero false) z = S754_zero false.
Proof. by destruct z as [[|]| | |]. Qed.

Lemma sub_zero_zero (z : float32) :
  is_zero32 z = true -> f_sub (S754_zero false) z = S754_zero false.
Proof. by destruct z as [[|]| | |]. Qed.

Lemma term_on_zeros (c : list float32) (n i : nat) :
  Forall (fun v => is_finite32 v = true) c ->
  is_zero32 (term c (replicate n f_zero) i) = true.
Proof.
  intros Hc. unfold term.
  assert (Hh : nth i (replicate n f_zero) f_zero = S754_zero false).
  { rewrite nth_lookup.
    destruct (replicate n f_zero !! i) as [v|] eqn:Hv; [|done].
    by apply lookup_replicate in Hv as [-> _]. }
  rewrite Hh. apply mul_finite_zero. rewrite nth_lookup.
  destruct (c !! i) as [v|] eqn:Hv; [|done].
  by apply (Forall_lookup_1 _ _ _ _ Hc Hv).
Qed.

Lemma add_terms_zeros (f : nat -> float32) n : forall lo,
  (forall i, is_zero32 (f i) = true) ->
  add_terms f lo n (S754_zero false) = S754_zero false.
Proof.
  unfold add_terms. induction n as [|n IH]; intros lo Hf; [done|].
  cbn [seq fold_left]. rewrite add_zero_zero by done. by apply IH.
Qed.

Lemma sub_terms_zeros (f : nat -> float32) n : forall lo,
  (forall i, is_zero32 (f i) = true) ->
  sub_terms f lo n (S754_zero false) = S754_zero false.
Proof.
  unfold sub_terms. induction n as [|n IH]; intros lo Hf; [done|].
  cbn [seq fold_left]. rewrite sub_zero_zero by done. by apply IH.
Qed.

(** The initial state is a fixed point of a call with [0.0], which returns
    [0.0], whatever the finite coefficients. *)
Lemma zero_call_on_static_init (b a : list float32) :
  Forall (fun v => is_finite32 v = true) b ->
  Forall (fun v => is_finite32 v = true) a ->
  FILTER_ORDER < length b -> FILTER_ORDER < length a ->
  process_filter f_zero (static_init b a) = Some (f_zero, static_init b a).
Proof.
  intros Hb Ha Hlb Hla.
  pose proof (well_formed_static_init b a Hlb Hla) as Hwf.
  assert (Hpush : f_zero :: take FILTER_ORDER
                    (replicate (S FILTER_ORDER) (f_zero : float32)) =
                  replicate (S FILTER_ORDER) f_zero).
  { rewrite take_replicate.
    by replace (FILTER_ORDER `min` S FILTER_ORDER) with FILTER_ORDER by lia. }
  assert (Hout : output_of f_zero (static_init b a) = f_zero).
  { rewrite (output_of_pushed _ _ f_zero Hwf).
    unfold static_init; cbn [B_COEFFS A_COEFFS x_hist y_hist].
    rewrite Hpush. unfold recurrence_output.
    rewrite add_terms_zeros by (intros i; by apply term_on_zeros).
    apply sub_terms_zeros. intros i. by apply term_on_zeros. }
  rewrite process_filter_spec by done. unfold globals_after.
  rewrite Hout. unfold static_init; cbn [B_COEFFS A_COEFFS x_hist y_hist t].
  by rewrite Hpush.
Qed.

Lemma zero_run_on_static_init (b a : list float32) (n : nat) :
  Forall (fun v => is_finite32 v = true) b ->
  Forall (fun v => is_finite32 v = true) a ->
  FILTER_ORDER < length b -> FILTER_ORDER < length a ->
  process_samples (replicate n f_zero) (static_init b a) =
    Some (replicate n f_zero, static_init b a).
Proof.
  intros Hb Ha Hlb Hla.
  pose proof (zero_call_on_static_init b a Hb Ha Hlb Hla) as Hstep.
  induction n as [|n IH]; [done|].
  cbn [replicate process_samples].
  by rewrite (bind_Some _ _ _ _ _ Hstep), (bind_Some _ _ _ _ _ IH).
Qed.

(** ** The program on its own coefficients *)

(** The literals of the sketch as binary32 numbers. *)
Lemma B_COEFFS_init_bits :
  B_COEFFS_init =
    [S754_zero false; S754_finite false 10843719 (-29); S754_zero true].
Proof. vm_compute. reflexivity. Qed.

Lemma A_COEFFS_init_bits :
  A_COEFFS_init =
    [S754_finite false 8388608 (-23); S754_finite true 15004049 (-23);
     S754_finite false 13570385 (-24)].
Proof. vm_compute. reflexivity. Qed.

Lemma literals_round_alike :
  B_COEFFS_init =
    [single_lit false 0; single_lit false 20198; single_lit true 0] /\
  A_COEFFS_init =
    [single_lit false 1000000; single_lit true 1788622;
     single_lit false 808858].
Proof. split; vm_compute; reflexivity. Qed.

Lemma initial_globals_well_formed : well_formed initial_globals.
Proof. apply well_formed_static_init; vm_compute; lia. Qed.

(** C3, amended.  The impulse [1, 0, 0, 0, 0] from the initial state
    returns five finite outputs, each within [1e-6] of the value the stated
    recurrence gives on the decimal coefficients; the first is [0.0], the
    second is within [1e-6] of [0.020198], the third within [1e-6] of
    [0.020198 * 1.788622], which is [0.036127] to six places. *)
Theorem C3_impulse_response :
  exists y0 y1 y2 y3 y4 g',
    process_samples impulse initial_globals = Some ([y0; y1; y2; y3; y4], g') /\
    Forall2 (fun y q => within tolerance y q = true) [y0; y1; y2; y3; y4]
            (stated_recurrence B_decimal A_decimal impulse_decimal 5) /\
    y0 = S754_zero false /\
    within tolerance y1 (20198 # 1000000) = true /\
    within tolerance y2 ((20198 # 1000000) * (1788622 # 1000000)) = true /\
    within tolerance y2 (36127 # 1000000) = true.
Proof.
  do 6 eexists. split; [vm_compute; reflexivity|].
  split; [|by vm_compute].
  repeat constructor; by vm_compute.
Qed.

(** C3 as stated fails at its last figure: the third output, like the exact
    product [0.020198 * 1.788622], is further than [1e-6] from
    [0.036129]. *)
Lemma C3_third_output_is_not_0_036129 :
  exists ys g',
    process_samples impulse initial_globals = Some (ys, g') /\
    within tolerance (nth 2 ys f_zero) (36129 # 1000000) = false /\
    Qle_bool (Qabs ((20198 # 1000000) * (1788622 # 1000000)
                    - (36129 # 1000000))) tolerance = false.
Proof. do 2 eexists. split; [vm_compute; reflexivity|]. by vm_compute. Qed.

(** C4.  From the initial state, whose histories are all [0.0], any number
    of calls with [0.0] return [0.0] each, and the histories are all [0.0]
    afterwards. *)
Theorem C4_zero_input_zero_output (n : nat) :
  x_hist initial_globals = replicate (S FILTER_ORDER) f_zero /\
  y_hist initial_globals = replicate (S FILTER_ORDER) f_zero /\
  exists g',
    process_samples (replicate n f_zero) initial_globals =
      Some (replicate n f_zero, g') /\
    x_hist g' = replicate (S FILTER_ORDER) f_zero /\
    y_hist g' = replicate (S FILTER_ORDER) f_zero.
Proof.
  do 2 (split; [reflexivity|]). exists initial_globals.
  split; [|done].
  apply zero_run_on_static_init.
  1,2: by repeat constructor.
  all: vm_compute; lia.
Qed.


(** Short of overflow, sums round: with both scalars [1.0],
    [X1 = [16777216.0, 0.0]] and [X2 = [1.0, 0.0]], the combined sample
    [16777216.0 + 1.0] rounds to [16777216.0], and the second output of the
    combined run is one unit in the last place below [Y1[1] + Y2[1]]. *)
Lemma rounding_gap_in_linearity :
  let X1 := [S754_finite false 8388608 1; f_zero] in
  let X2 := [one32; f_zero] in
  exists Y1 Y2 Y3 g1 g2 g3,
    process_samples X1 initial_globals = Some (Y1, g1) /\
    process_samples X2 initial_globals = Some (Y2, g2) /\
    process_samples (zip_with (lin one32 one32) X1 X2) initial_globals =
      Some (Y3, g3) /\
    Y3 = [S754_zero false; S754_finite false 10843719 (-5)] /\
    zip_with (lin one32 one32) Y1 Y2 =
      [S754_zero false; S754_finite false 10843720 (-5)].
Proof.
  do 6 eexists.
  do 3 (split; [vm_compute; reflexivity|]).
  split; vm_compute; reflexivity.
Qed.

(** ** Construction *)

(** C7 as stated fails.  With [A_COEFFS[0] = 0.0], and again with a fourth
    entry appended to [B_COEFFS], the described constructor reports
    [ConfigurationError], while the program so initialised has arrays within
    the bounds the code relies on and answers the impulse with the very
    outputs it returns on its own coefficients. *)
Lemma C7_zero_leading_coefficient_is_accepted :
  let a := <[0:=S754_zero false]> A_COEFFS_init in
  let b := B_COEFFS_init ++ [one32] in
  Construct_as_described FILTER_ORDER B_COEFFS_init a =
    inl ConfigurationError /\
  Construct_as_described FILTER_ORDER b A_COEFFS_init =
    inl ConfigurationError /\
  well_formed (static_init B_COEFFS_init a) /\
  well_formed (static_init b A_COEFFS_init) /\
  exists ys g g' g'',
    process_samples impulse (static_init B_COEFFS_init a) = Some (ys, g) /\
    process_samples impulse (static_init b A_COEFFS_init) = Some (ys, g') /\
    process_samples impulse initial_globals = Some (ys, g'').
Proof.
  do 2 (split; [vm_compute; reflexivity|]).
  do 2 (split; [apply well_formed_static_init; vm_compute; lia|]).
  do 4 eexists.
  split; [vm_compute; reflexivity|].
  split; vm_compute; reflexivity.
Qed.

(** Nothing notices a coefficient array that is too short either: the first
    call reads past its end. *)
Lemma short_coefficients_read_out_of_bounds :
  process_filter one32 (static_init (take 2 B_COEFFS_init) A_COEFFS_init) =
    None.
Proof. vm_compute. reflexivity. Qed.

(** C7, amended.  Static initialisation checks nothing and cannot fail:
    whenever both coefficient arrays have at least [order + 1] entries,
    whatever [A[0]] is, the histories start as [order + 1] zeros and every
    sequence of calls succeeds, with one output per sample. *)
Theorem C7_static_init_is_always_usable (b a xs : list float32) :
  FILTER_ORDER < length b -> FILTER_ORDER < length a ->
  x_hist (static_init b a) = replicate (S FILTER_ORDER) f_zero /\
  y_hist (static_init b a) = replicate (S FILTER_ORDER) f_zero /\
  exists ys g',
    process_samples xs (static_init b a) = Some (ys, g') /\
    length ys = length xs /\
    length (x_hist g') = S FILTER_ORDER /\
    length (y_hist g') = S FILTER_ORDER.
Proof.
  intros Hb Ha. do 2 (split; [reflexivity|]).
  destruct (process_samples_total xs (static_init b a))
    as (ys & g' & Hrun & Hlen & (_ & _ & Hx & Hy)).
  { by apply well_formed_static_init. }
  by exists ys, g'.
Qed.

(** ** Instances of the hypotheses *)

Lemma C1_witness :
  well_formed sample_globals /\
  exists g1 y g',
    shift_and_store one32 sample_globals = Some (tt, g1) /\
    x_hist g1 !! 0 = Some one32 /\
    process_filter one32 sample_globals = Some (y, g') /\
    y = sub_terms (term (A_COEFFS sample_globals) (y_hist g1)) 1 FILTER_ORDER
          (add_terms (term (B_COEFFS sample_globals) (x_hist g1)) 0
                     (S FILTER_ORDER) f_zero).
Proof.
  assert (Hwf : well_formed sample_globals) by (repeat split; vm_compute; lia).
  split; [exact Hwf|].
  exact (C1_output_is_recurrence one32 sample_globals Hwf).
Defined.

Lemma C2_witness :
  well_formed sample_globals /\
  exists g1 y g',
    shift_and_store one32 sample_globals = Some (tt, g1) /\
    (forall i, 1 <= i <= FILTER_ORDER ->
               x_hist g1 !! i = x_hist sample_globals !! (i - 1) /\
               y_hist g1 !! i = y_hist sample_globals !! (i - 1)) /\
    x_hist g1 !! 0 = Some one32 /\
    y_hist g1 !! 0 = y_hist sample_globals !! 0 /\
    length (x_hist g1) = S FILTER_ORDER /\
    length (y_hist g1) = S FILTER_ORDER /\
    compute_output g1 = Some (y, g1) /\
    process_filter one32 sample_globals = Some (y, g') /\
    g' = set_y_hist (<[0:=y]> (y_hist g1)) g1.
Proof.
  assert (Hwf : well_formed sample_globals) by (repeat split; vm_compute; lia).
  split; [exact Hwf|].
  exact (C2_shift_then_compute_then_store one32 sample_globals Hwf).
Defined.

Lemma C6_witness :
  well_formed initial_globals /\
  exists y0 g' g1 y,
    process_filter one32 initial_globals = Some (y0, g') /\
    shift_and_store f_zero g' = Some (tt, g1) /\
    y_hist g1 !! 0 = Some y0 /\
    compute_output g1 = Some (y, g1) /\
    compute_output (set_y_hist (<[0:=one32]> (y_hist g1)) g1) =
      Some (y, set_y_hist (<[0:=one32]> (y_hist g1)) g1) /\
    process_filter f_zero g' = Some (y, set_y_hist (<[0:=y]> (y_hist g1)) g1).
Proof.
  assert (Hwf : well_formed initial_globals)
    by (repeat split; vm_compute; lia).
  split; [exact Hwf|].
  exact (C6_output_ignores_slot_0 one32 f_zero one32 initial_globals Hwf).
Defined.

Lemma C8_witness :
  well_formed sample_globals /\
  B_COEFFS sample_globals = B_COEFFS sample_globals_later /\
  A_COEFFS sample_globals = A_COEFFS sample_globals_later /\
  x_hist sample_globals = x_hist sample_globals_later /\
  y_hist sample_globals = y_hist sample_globals_later /\
  exists y g1' g2',
    process_filter one32 sample_globals = Some (y, g1') /\
    process_filter one32 sample_globals_later = Some (y, g2') /\
    x_hist g1' = x_hist g2' /\ y_hist g1' = y_hist g2'.
Proof.
  assert (Hwf : well_formed sample_globals) by (repeat split; vm_compute; lia).
  split; [exact Hwf|].
  do 4 (split; [reflexivity|]).
  exact (C8_deterministic one32 sample_globals sample_globals_later Hwf
           eq_refl eq_refl eq_refl eq_refl).
Defined.

Lemma C9_witness :
  well_formed sample_globals /\
  exists y g',
    process_filter one32 sample_globals = Some (y, g') /\
    B_COEFFS g' = B_COEFFS sample_globals /\
    A_COEFFS g' = A_COEFFS sample_globals /\
    t g' = t sample_globals.
Proof.
  assert (Hwf : well_formed sample_globals) by (repeat split; vm_compute; lia).
  split; [exact Hwf|].
  exact (C9_only_histories_change one32 sample_globals Hwf).
Defined.

Lemma C10_witness :
  well_formed sample_globals /\
  exists y g',
    process_filter one32 sample_globals = Some (y, g') /\
    process_filter one32
        (Globals (B_COEFFS sample_globals)
                 (<[0:=S754_zero false]> (A_COEFFS sample_globals))
                 (x_hist sample_globals) (y_hist sample_globals)
                 (t sample_globals)) =
      Some (y, Globals (B_COEFFS g') (<[0:=S754_zero false]> (A_COEFFS g'))
                       (x_hist g') (y_hist g') (t g')).
Proof.
  assert (Hwf : well_formed sample_globals) by (repeat split; vm_compute; lia).
  split; [exact Hwf|].
  exact (C10_leading_feedback_coefficient_unread
           one32 (S754_zero false) sample_globals Hwf).
Defined.


Lemma C7_witness :
  FILTER_ORDER < length B_COEFFS_init /\
  FILTER_ORDER < length (<[0:=S754_zero false]> A_COEFFS_init) /\
  x_hist (static_init B_COEFFS_init (<[0:=S754_zero false]> A_COEFFS_init)) =
    replicate (S FILTER_ORDER) f_zero /\
  y_hist (static_init B_COEFFS_init (<[0:=S754_zero false]> A_COEFFS_init)) =
    replicate (S FILTER_ORDER) f_zero /\
  exists ys g',
    process_samples impulse
      (static_init B_COEFFS_init (<[0:=S754_zero false]> A_COEFFS_init)) =
      Some (ys, g') /\
    length ys = length impulse /\
    length (x_hist g') = S FILTER_ORDER /\
    length (y_hist g') = S FILTER_ORDER.
Proof.
  assert (Hb : FILTER_ORDER < length B_COEFFS_init) by (vm_compute; lia).
  assert (Ha : FILTER_ORDER < length (<[0:=S754_zero false]> A_COEFFS_init))
    by (vm_compute; lia).
  do 2 (split; [assumption|]).
  exact (C7_static_init_is_always_usable
           B_COEFFS_init (<[0:=S754_zero false]> A_COEFFS_init) impulse
           Hb Ha).
Defined.

(** ** Runs of several calls *)

Section RunProperties.
Context {F : Type} {ops : Arith F}.
Implicit Types (g : globals F) (l h xs ys : list F) (x y v : F).

(** The run on [xs1 ++ xs2], by cases on the runs on the two pieces. *)
Lemma process_samples_app_cases xs1 xs2 : forall g,
  process_samples (xs1 ++ xs2) g =
    match process_samples xs1 g with
    | Some (ys1, g1) =>
        match process_samples xs2 g1 with
        | Some (ys2, g2) => Some (ys1 ++ ys2, g2)
        | None => None
        end
    | None => None
    end.
Proof.
  induction xs1 as [|x xs1 IH]; intros g.
  - cbn [app process_samples]. unfold ret.
    destruct (process_samples xs2 g) as [[ys2 g2]|]; reflexivity.
  - cbn [app process_samples]. unfold bind, ret.
    destruct (process_filter x g) as [[y g1]|]; [|reflexivity].
    rewrite IH.
    destruct (process_samples xs1 g1) as [[ys1 g1']|]; [|reflexivity].
    destruct (process_samples xs2 g1') as [[ys2 g2]|]; reflexivity.
Qed.

Lemma take_app_take n m l h :
  n <= length l + m -> take n (l ++ take m h) = take n (l ++ h).
Proof.
  intros Hn. rewrite !take_app, take_take. do 2 f_equal. lia.
Qed.

(** What a run leaves in the globals. *)
Lemma run_window xs : forall g ys g',
  well_formed g ->
  process_samples xs g = Some (ys, g') ->
  x_hist g' = take (S FILTER_ORDER) (rev xs ++ x_hist g) /\
  y_hist g' = take (S FILTER_ORDER) (rev ys ++ y_hist g) /\
  B_COEFFS g' = B_COEFFS g /\ A_COEFFS g' = A_COEFFS g /\ t g' = t g.
Proof.
  induction xs as [|x xs IH]; intros g ys g' Hwf Hrun.
  - injection Hrun as <- <-. destruct Hwf as (_ & _ & Hx & Hy).
    simpl. by rewrite !take_ge by lia.
  - cbn [process_samples] in Hrun.
    rewrite (bind_Some _ _ _ _ _ (process_filter_spec x g Hwf)) in Hrun.
    unfold bind, ret in Hrun.
    destruct (process_samples xs (globals_after x g)) as [[ys1 g1]|] eqn:H1;
      [|discriminate].
    injection Hrun as <- <-.
    destruct (IH _ _ _ (well_formed_globals_after x g Hwf) H1)
      as (Hxh & Hyh & HB & HA & Ht).
    cbn [globals_after x_hist y_hist B_COEFFS A_COEFFS t] in *.
    repeat split; try done.
    + rewrite Hxh. cbn [rev]. rewrite <- !(assoc_L (++)). cbn [app].
      change (x :: take FILTER_ORDER (x_hist g))
        with ([x] ++ take FILTER_ORDER (x_hist g)).
      change (x :: x_hist g) with ([x] ++ x_hist g).
      rewrite !(assoc_L (++)). apply take_app_take.
      rewrite length_app. simpl. lia.
    + rewrite Hyh. cbn [rev]. rewrite <- !(assoc_L (++)). cbn [app].
      change (output_of x g :: take FILTER_ORDER (y_hist g))
        with ([output_of x g] ++ take FILTER_ORDER (y_hist g)).
      change (output_of x g :: y_hist g) with ([output_of x g] ++ y_hist g).
      rewrite !(assoc_L (++)). apply take_app_take.
      rewrite length_app. simpl. lia.
Qed.

(** X2.  From arrays of the declared sizes a run never reads or writes out
    of bounds and returns one output per sample; afterwards the histories
    hold the latest [order + 1] samples and outputs, newest first, made up
    from what they held before when the run is shorter, and the
    coefficients and [t] are as before. *)
Theorem histories_hold_latest xs g :
  well_formed g ->
  exists ys g',
    process_samples xs g = Some (ys, g') /\
    length ys = length xs /\
    x_hist g' = take (S FILTER_ORDER) (rev xs ++ x_hist g) /\
    y_hist g' = take (S FILTER_ORDER) (rev ys ++ y_hist g) /\
    B_COEFFS g' = B_COEFFS g /\ A_COEFFS g' = A_COEFFS g /\ t g' = t g.
Proof.
  intros Hwf.
  destruct (process_samples_total xs g Hwf) as (ys & g' & Hrun & Hlen & _).
  exists ys, g'. split; [done|]. split; [done|].
  by apply (run_window xs g ys g').
Qed.

(** X3.  The last slot of each history is dead on entry: two states with
    the same coefficients whose histories agree on their first [order]
    entries return the same output and are left with the same
    histories. *)
Theorem oldest_slot_is_dead x g1 g2 :
  well_formed g1 -> well_formed g2 ->
  B_COEFFS g1 = B_COEFFS g2 -> A_COEFFS g1 = A_COEFFS g2 ->
  take FILTER_ORDER (x_hist g1) = take FILTER_ORDER (x_hist g2) ->
  take FILTER_ORDER (y_hist g1) = take FILTER_ORDER (y_hist g2) ->
  exists y g1' g2',
    process_filter x g1 = Some (y, g1') /\
    process_filter x g2 = Some (y, g2') /\
    x_hist g1' = x_hist g2' /\ y_hist g1' = y_hist g2'.
Proof.
  intros Hwf1 Hwf2 HB HA Hx Hy.
  assert (Hout : output_of x g2 = output_of x g1).
  { rewrite (output_of_pushed x g1 f_zero), (output_of_pushed x g2 f_zero)
      by done.
    by rewrite HB, HA, Hx, Hy. }
  exists (output_of x g1), (globals_after x g1), (globals_after x g2).
  split; [by apply process_filter_spec|].
  split; [by rewrite process_filter_spec, Hout|].
  unfold globals_after; cbn [x_hist y_hist]. by rewrite Hout, Hx, Hy.
Qed.

End RunProperties.

(** ** Out-of-bounds reads *)

Section Bounds.
Context {F : Type} {ops : Arith F}.
Implicit Types (g : globals F) (x y v : F).

Lemma load_None (arr : globals F -> list F) i g :
  length (arr g) <= i -> load arr i g = None.
Proof. intros H. unfold load. by rewrite lookup_ge_None_2. Qed.

Lemma bind_None {A B} (m : M F A) (k : A -> M F B) g :
  m g = None -> bind m k g = None.
Proof. intros H. unfold bind. by rewrite H. Qed.

(** A loop whose body fails at index [k], after bodies that return without
    touching the globals, fails. *)
Lemma for_up_fails (body : nat -> F -> M F F) g k n : forall i y,
  i <= k < i + n ->
  (forall j acc, i <= j < k -> exists v', body j acc g = Some (v', g)) ->
  (forall acc, body k acc g = None) ->
  for_up n i body y g = None.
Proof.
  induction n as [|n IH]; intros i y Hk Hbefore Hat; [lia|].
  cbn [for_up]. destruct (decide (i = k)) as [->|Hne].
  - by rewrite bind_None.
  - destruct (Hbefore i y) as [v' Hv']; [lia|].
    rewrite (bind_Some _ _ _ _ _ Hv').
    apply IH; [lia| |done]. intros j acc Hj. apply Hbefore. lia.
Qed.

Lemma shift_and_store_declared x g :
  length (x_hist g) = S FILTER_ORDER -> length (y_hist g) = S FILTER_ORDER ->
  shift_and_store x g = Some (tt, after_shift x g).
Proof.
  intros Hx Hy. unfold shift_and_store.
  rewrite (bind_Some _ _ _ _ _
             (shift_loop_spec FILTER_ORDER g ltac:(lia) ltac:(lia))).
  rewrite store_x_Some; cbn [x_hist]; [|rewrite length_shifted; lia].
  unfold set_x_hist, after_shift; cbn [B_COEFFS A_COEFFS x_hist y_hist t].
  by rewrite insert_0_shifted.
Qed.

Lemma compute_output_short_B g :
  length (B_COEFFS g) <= FILTER_ORDER ->
  FILTER_ORDER < length (x_hist g) ->
  compute_output g = None.
Proof.
  intros HB Hx. unfold compute_output. apply bind_None.
  apply (for_up_fails _ _ (length (B_COEFFS g))); [lia| |].
  - intros j acc Hj. eexists. apply feedforward_body_spec; lia.
  - intros acc. unfold feedforward_body. apply bind_None. by apply load_None.
Qed.

Lemma compute_output_short_A g :
  FILTER_ORDER < length (B_COEFFS g) ->
  length (A_COEFFS g) <= FILTER_ORDER ->
  FILTER_ORDER < length (x_hist g) ->
  FILTER_ORDER < length (y_hist g) ->
  compute_output g = None.
Proof.
  intros HB HA Hx Hy. unfold compute_output.
  assert (Hord : 1 <= FILTER_ORDER) by (unfold FILTER_ORDER; lia).
  replace (S FILTER_ORDER - 0) with (S FILTER_ORDER) by lia.
  rewrite (bind_Some _ _ _ _ _
             (for_up_fold f_add (term (B_COEFFS g) (x_hist g))
                feedforward_body g (S FILTER_ORDER) 0 f_zero
                ltac:(intros; apply feedforward_body_spec; lia))).
  apply (for_up_fails _ _ (1 `max` length (A_COEFFS g))); [lia| |].
  - intros j acc Hj. eexists. apply feedback_body_spec; lia.
  - intros acc. unfold feedback_body. apply bind_None. apply load_None. lia.
Qed.

(** X4.  With histories of the declared size, a call returns exactly when
    both coefficient arrays have more than [FILTER_ORDER] entries; with a
    shorter one it indexes past the end of that array. *)
Theorem process_filter_in_bounds_iff x g :
  length (x_hist g) = S FILTER_ORDER -> length (y_hist g) = S FILTER_ORDER ->
  is_Some (process_filter x g) <->
  FILTER_ORDER < length (B_COEFFS g) /\ FILTER_ORDER < length (A_COEFFS g).
Proof.
  intros Hx Hy. split.
  - intros [r Hr].
    destruct (decide (FILTER_ORDER < length (B_COEFFS g))) as [HB|HB];
      [destruct (decide (FILTER_ORDER < length (A_COEFFS g))) as [HA|HA]|];
      [done| |]; exfalso; revert Hr; unfold process_filter;
      rewrite (bind_Some _ _ _ _ _ (shift_and_store_declared x g Hx Hy));
      rewrite bind_None; try done.
    + apply compute_output_short_A; cbn [after_shift B_COEFFS A_COEFFS
        x_hist y_hist]; rewrite ?length_shifted; simpl;
        rewrite ?length_take; lia.
    + apply compute_output_short_B; cbn [after_shift B_COEFFS x_hist];
        simpl; rewrite ?length_take; lia.
  - intros [HB HA]. rewrite process_filter_spec by done. by eexists.
Qed.

End Bounds.

(** ** The outputs of a run, from the samples and the outputs before *)

Section RunRecurrence.
Context {F : Type} {ops : Arith F}.
Implicit Types (g : globals F) (xs ys : list F) (x y : F).

(** X5.  In a run, every output is the recurrence on the samples up to
    and including its own and on the outputs before it, newest first, topped
    up from the histories at the start of the run; its own slot in the
    output window is not read. *)
Theorem run_output_is_recurrence xs ys g g' n x :
  well_formed g ->
  process_samples xs g = Some (ys, g') ->
  xs !! n = Some x ->
  ys !! n =
    Some (recurrence_output (B_COEFFS g) (A_COEFFS g)
            (take (S FILTER_ORDER) (rev (take (S n) xs) ++ x_hist g))
            (f_zero :: take FILTER_ORDER (rev (take n ys) ++ y_hist g))).
Proof.
  intros Hwf Hrun Hn.
  assert (Hlt : n < length xs) by (by eapply lookup_lt_Some).
  rewrite <- (take_drop_middle xs n x Hn) in Hrun.
  rewrite process_samples_app_cases in Hrun.
  destruct (process_samples_total (take n xs) g Hwf)
    as (ys1 & g1 & Hrun1 & Hlen1 & Hwf1).
  destruct (run_window _ _ _ _ Hwf Hrun1) as (Hxh & Hyh & HB & HA & _).
  rewrite Hrun1 in Hrun. cbn [process_samples] in Hrun.
  rewrite (bind_Some _ _ _ _ _ (process_filter_spec x g1 Hwf1)) in Hrun.
  unfold bind, ret in Hrun.
  destruct (process_samples (drop (S n) xs) (globals_after x g1))
    as [[ys2 g2]|]; [|discriminate].
  injection Hrun as <- _.
  rewrite length_take in Hlen1.
  assert (Hn1 : n = length ys1) by lia.
  rewrite (list_lookup_middle ys1 ys2 _ n Hn1).
  rewrite (take_app_length' ys1 _ n Hn1).
  rewrite (take_S_r xs n x Hn), rev_app_distr. cbn [rev app].
  rewrite (output_of_pushed x g1 f_zero Hwf1), HB, HA, Hxh, Hyh.
  rewrite !take_take.
  by replace (FILTER_ORDER `min` S FILTER_ORDER) with FILTER_ORDER by lia.
Qed.

End RunRecurrence.

(** ** Zeros, the newest sample and NaN on [float] *)

Section FloatBehaviour.
Implicit Types (g : globals float32) (x y z : float32) (xs ys : list float32).

(** X6.  From the initial state with finite coefficients, [k] samples
    [0.0] ahead of a sequence only delay its answer: the run returns [k]
    outputs [0.0] and then the outputs of the sequence itself, and ends in
    the same globals. *)
Theorem leading_zeros_only_delay (b a : list float32) xs ys g' (k : nat) :
  Forall (fun v => is_finite32 v = true) b ->
  Forall (fun v => is_finite32 v = true) a ->
  FILTER_ORDER < length b -> FILTER_ORDER < length a ->
  process_samples xs (static_init b a) = Some (ys, g') ->
  process_samples (replicate k f_zero ++ xs) (static_init b a) =
    Some (replicate k f_zero ++ ys, g').
Proof.
  intros Hb Ha Hlb Hla Hrun.
  by rewrite process_samples_app_cases, zero_run_on_static_init, Hrun.
Qed.

Lemma mul_zero_finite z x :
  is_zero32 z = true -> is_finite32 x = true ->
  is_zero32 (f_mul z x) = true.
Proof. by destruct z, x. Qed.

Lemma add_terms_first (f : nat -> float32) (n : nat) y :
  add_terms f 0 (S n) y = add_terms f 1 n (f_add y (f 0)).
Proof. reflexivity. Qed.

Lemma first_term_vanishes (b l : list float32) z x :
  b !! 0 = Some z -> is_zero32 z = true -> is_finite32 x = true ->
  f_add f_zero (term b (x :: l) 0) = S754_zero false.
Proof.
  intros Hb Hz Hx. unfold term. rewrite (nth_lookup_Some _ _ _ _ Hb).
  cbn [nth]. apply add_zero_zero. by apply mul_zero_finite.
Qed.

(** X7.  When [B_COEFFS[0]] is a zero, as in the sketch, the output of a
    call does not depend on the sample passed to it, as long as the sample
    is finite: the filter answers one call late. *)
Theorem newest_sample_unread_when_B0_is_zero x x' z g :
  well_formed g ->
  B_COEFFS g !! 0 = Some z -> is_zero32 z = true ->
  is_finite32 x = true -> is_finite32 x' = true ->
  exists y g1 g2,
    process_filter x g = Some (y, g1) /\
    process_filter x' g = Some (y, g2).
Proof.
  intros Hwf HB0 Hz Hx Hx'.
  exists (output_of x g), (globals_after x g), (globals_after x' g).
  split; [by apply process_filter_spec|].
  rewrite process_filter_spec by done. do 2 f_equal.
  unfold output_of, recurrence_output. f_equal.
  rewrite !add_terms_first.
  rewrite !(first_term_vanishes _ _ z) by done.
  apply add_terms_ext. intros i Hi. apply term_ext; [done|].
  by destruct i; [lia|].
Qed.

Lemma add_terms_nan (f : nat -> float32) n : forall lo,
  add_terms f lo n S754_nan = S754_nan.
Proof.
  unfold add_terms. induction n as [|n IH]; intros lo; [done|].
  cbn [seq fold_left]. apply IH.
Qed.

Lemma sub_terms_nan (f : nat -> float32) n : forall lo,
  sub_terms f lo n S754_nan = S754_nan.
Proof.
  unfold sub_terms. induction n as [|n IH]; intros lo; [done|].
  cbn [seq fold_left]. apply IH.
Qed.

Lemma mul_nan z : f_mul z S754_nan = S754_nan.
Proof. by destruct z. Qed.

Lemma add_nan z : f_add z S754_nan = S754_nan.
Proof. by destruct z. Qed.

Lemma sub_nan z : f_sub z S754_nan = S754_nan.
Proof. by destruct z. Qed.

Lemma output_of_nan_sample g :
  output_of S754_nan g = S754_nan.
Proof.
  unfold output_of, recurrence_output.
  rewrite add_terms_first.
  assert (Hterm : forall (b l : list float32),
             term b (S754_nan :: l) 0 = S754_nan).
  { intros b l. unfold term. cbn [nth]. apply mul_nan. }
  by rewrite Hterm, add_nan, add_terms_nan, sub_terms_nan.
Qed.

Lemma output_of_nan_history x g :
  well_formed g -> y_hist g !! 0 = Some S754_nan ->
  output_of x g = S754_nan.
Proof.
  intros (_ & _ & _ & Hy) H0. unfold output_of, recurrence_output.
  assert (Hord : exists k, FILTER_ORDER = S k) by (by exists 1).
  destruct Hord as [k Hk].
  assert (H1 : term (A_COEFFS g) (shifted FILTER_ORDER (y_hist g)) 1 =
               S754_nan).
  { unfold term.
    rewrite (nth_lookup_Some (shifted FILTER_ORDER (y_hist g)) 1 f_zero
                             S754_nan).
    - apply mul_nan.
    - rewrite lookup_shifted by lia. done. }
  set (acc := add_terms _ _ _ _).
  set (f := term (A_COEFFS g) (shifted FILTER_ORDER (y_hist g))) in *.
  unfold sub_terms. rewrite Hk. cbn [seq fold_left].
  rewrite H1, sub_nan. apply sub_terms_nan.
Qed.

Lemma nan_history_poisons_run xs : forall g,
  well_formed g -> y_hist g !! 0 = Some S754_nan ->
  exists ys g',
    process_samples xs g = Some (ys, g') /\
    Forall (fun y => y = S754_nan) ys.
Proof.
  induction xs as [|x xs IH]; intros g Hwf H0.
  - by exists [], g.
  - pose proof (output_of_nan_history x g Hwf H0) as Hout.
    destruct (IH (globals_after x g)) as (ys & g' & Hrun & Hall).
    { by apply well_formed_globals_after. }
    { unfold globals_after; cbn [y_hist]. by rewrite Hout. }
    exists (S754_nan :: ys), g'. cbn [process_samples].
    rewrite (bind_Some _ _ _ _ _ (process_filter_spec x g Hwf)).
    rewrite (bind_Some _ _ _ _ _ Hrun), Hout.
    split; [done|]. by constructor.
Qed.

(** X8.  A NaN sample poisons the filter for good: the call that receives
    it returns NaN, and so does every later call, whatever the coefficients
    and the later samples. *)
Theorem nan_sample_poisons_run xs g :
  well_formed g ->
  exists ys g',
    process_samples (S754_nan :: xs) g = Some (ys, g') /\
    Forall (fun y => y = S754_nan) ys.
Proof.
  intros Hwf.
  pose proof (output_of_nan_sample g) as Hout.
  destruct (nan_history_poisons_run xs (globals_after S754_nan g))
    as (ys & g' & Hrun & Hall).
  { by apply well_formed_globals_after. }
  { unfold globals_after; cbn [y_hist]. by rewrite Hout. }
  exists (S754_nan :: ys), g'. cbn [process_samples].
  rewrite (bind_Some _ _ _ _ _ (process_filter_spec _ g Hwf)).
  rewrite (bind_Some _ _ _ _ _ Hrun), Hout.
  split; [done|]. by constructor.
Qed.

End FloatBehaviour.

(** ** [loop], pass after pass *)

Section SketchRuns.
Variables (dprec demax : Z) (PI : spec_float)
          (sin : spec_float -> spec_float).

Local Abbreviation dt := (dt dprec demax).
Local Abbreviation test_freq := (test_freq dprec demax).
Local Abbreviation input_sample := (input_sample dprec demax PI sin).
Local Abbreviation loop_calls := (loop_calls dprec demax).
Local Abbreviation loop := (loop dprec demax PI sin).
Local Abbreviation loops := (loops dprec demax PI sin).
Local Abbreviation time_after := (time_after dprec demax).
Local Abbreviation samples_from := (samples_from dprec demax PI sin).

Lemma process_filter_set_t (v x : float32) (g : globals float32) :
  well_formed g ->
  process_filter x (set_t v g) =
    Some (output_of x g, set_t v (globals_after x g)).
Proof.
  intros Hwf. rewrite process_filter_spec by done. done.
Qed.

Lemma process_samples_set_t (v : float32) xs : forall g ys g',
  well_formed g ->
  process_samples xs g = Some (ys, g') ->
  process_samples xs (set_t v g) = Some (ys, set_t v g').
Proof.
  induction xs as [|x xs IH]; intros g ys g' Hwf Hrun.
  - injection Hrun as <- <-. done.
  - cbn [process_samples] in *.
    rewrite (bind_Some _ _ _ _ _ (process_filter_spec x g Hwf)) in Hrun.
    rewrite (bind_Some _ _ _ _ _ (process_filter_set_t v x g Hwf)).
    unfold bind, ret in *.
    destruct (process_samples xs (globals_after x g)) as [[ys1 g1]|] eqn:H1;
      [|discriminate].
    injection Hrun as <- <-.
    by rewrite (IH _ _ _ (well_formed_globals_after x g Hwf) H1).
Qed.

Lemma samples_from_S (t0 : float32) (n : nat) :
  samples_from t0 (S n) =
    input_sample t0 :: samples_from (f_add t0 dt) n.
Proof.
  unfold samples_from. cbn [seq map]. f_equal.
  rewrite <- fmap_S_seq. rewrite <- list_fmap_compose.
  apply list_fmap_ext. intros _ k _.
  change (input_sample (time_after t0 (S k)) =
          input_sample (time_after (f_add t0 dt) k)).
  unfold time_after. by rewrite Nat.iter_succ_r.
Qed.

Lemma loops_run n : forall s ys g',
  well_formed (vars s) ->
  process_samples (samples_from (t (vars s)) n) (vars s) = Some (ys, g') ->
  loops n s =
    Some (Sketch (set_t (time_after (t (vars s)) n) g')
                 (calls s ++
                  concat (zip_with loop_calls
                                   (samples_from (t (vars s)) n) ys))).
Proof.
  induction n as [|n IH]; intros [g c] ys g' Hwf Hrun; cbn [vars calls] in *.
  - injection Hrun as <- <-. cbn. rewrite (right_id_L [] (++)).
    by destruct g.
  - rewrite samples_from_S in *. cbn [process_samples loops] in *.
    rewrite (bind_Some _ _ _ _ _ (process_filter_spec _ g Hwf)) in Hrun.
    unfold bind, ret in Hrun.
    destruct (process_samples _ (globals_after _ g)) as [[ys1 g1]|] eqn:H1;
      [|discriminate].
    injection Hrun as <- <-.
    unfold loop; cbn [vars calls]. rewrite process_filter_spec by done.
    pose proof (well_formed_globals_after (input_sample (t g)) g Hwf) as Hwf1.
    change (t (globals_after (input_sample (t g)) g)) with (t g).
    rewrite (IH _ ys1 (set_t (f_add (t g) dt) g1)); cbn [vars calls set_t t].
    + cbn [zip_with concat]. rewrite <- (assoc_L (++)).
      unfold time_after. by rewrite Nat.iter_succ_r.
    + done.
    + by apply process_samples_set_t.
Qed.

Lemma set_t_same (g : globals float32) : set_t (t g) g = g.
Proof. by destruct g. Qed.

(** X9.  From arrays of the declared sizes, [n] passes through [loop]
    never fail.  Pass [k] calls [process_filter] on
    [(float) sin(2 * PI * test_freq * t)], the product formed in [double],
    at the time [t] reached by adding [dt] [k] times in [float]; the passes
    leave the globals that these calls leave, with [t] advanced [n] times;
    and each pass adds six calls: print ["Input:"], print the sample plus
    [2.0] as a [double], print [","], print ["Output:"], println the value
    [process_filter] returned in that pass, [delay(5)]. *)
Theorem loops_feed_the_filter n s :
  well_formed (vars s) ->
  let sample := fun tv : float32 =>
    float_of_double
      (sin (SFmul dprec demax
              (SFmul dprec demax
                 (SFmul dprec demax (binary_normalize dprec demax 2 0 false)
                        PI)
                 (double_of_float dprec demax test_freq))
              (double_of_float dprec demax tv))) in
  let time := fun k => Nat.iter k (fun tv => f_add tv dt) (t (vars s)) in
  let pass := fun x y : float32 =>
    [ Serial_print_str "Input:";
      Serial_print_num
        (SFadd dprec demax (double_of_float dprec demax x)
               (binary_normalize dprec demax 2 0 false));
      Serial_print_str ",";
      Serial_print_str "Output:";
      Serial_println_num (double_of_float dprec demax y);
      Delay 5 ] in
  let xs := map (fun k => sample (time k)) (seq 0 n) in
  exists ys g',
    process_samples xs (vars s) = Some (ys, g') /\
    length ys = n /\
    loops n s =
      Some (Sketch (set_t (time n) g')
                   (calls s ++ concat (zip_with pass xs ys))).
Proof.
  intros Hwf sample time pass xs.
  destruct (process_samples_total xs (vars s) Hwf)
    as (ys & g' & Hrun & Hlen & _).
  exists ys, g'. split; [done|]. split.
  - rewrite Hlen. unfold xs. by rewrite length_map, length_seq.
  - exact (loops_run n s ys g' Hwf Hrun).
Qed.

(** X10.  On a board whose [double] is binary64 or binary32, the clock is
    stuck once [t] is [1024.0]: [1024.0 + dt] rounds back to [1024.0], so
    any number of passes through [loop] leave [t] at [1024.0], and every
    one of them calls [process_filter] on the same sample, that of the
    instant [1024.0], and prints the same input. *)
Theorem clock_is_stuck_at_1024 n s :
  (dprec = 53%Z /\ demax = 1024%Z) \/ (dprec = 24%Z /\ demax = 128%Z) ->
  well_formed (vars s) ->
  t (vars s) = S754_finite false 8388608 (-13) ->
  let x : float32 :=
    float_of_double
      (sin (SFmul dprec demax
              (SFmul dprec demax
                 (SFmul dprec demax (binary_normalize dprec demax 2 0 false)
                        PI)
                 (double_of_float dprec demax test_freq))
              (double_of_float dprec demax
                 (S754_finite false 8388608 (-13))))) in
  let pass := fun y : float32 =>
    [ Serial_print_str "Input:";
      Serial_print_num
        (SFadd dprec demax (double_of_float dprec demax x)
               (binary_normalize dprec demax 2 0 false));
      Serial_print_str ",";
      Serial_print_str "Output:";
      Serial_println_num (double_of_float dprec demax y);
      Delay 5 ] in
  exists ys g',
    process_samples (replicate n x) (vars s) = Some (ys, g') /\
    length ys = n /\
    t g' = S754_finite false 8388608 (-13) /\
    loops n s = Some (Sketch g' (calls s ++ concat (map pass ys))).
Proof.
  intros Hfmt Hwf Ht x pass.
  assert (Hstall : f_add (S754_finite false 8388608 (-13)) dt =
                   S754_finite false 8388608 (-13)).
  { destruct Hfmt as [[-> ->]|[-> ->]]; vm_compute; reflexivity. }
  assert (Htime : forall k,
             time_after (S754_finite false 8388608 (-13)) k =
             S754_finite false 8388608 (-13)).
  { induction k as [|k IH]; [done|].
    unfold time_after in *. by rewrite Nat.iter_succ, IH. }
  assert (Hsamples : samples_from (S754_finite false 8388608 (-13)) n =
                     replicate n x).
  { unfold samples_from. generalize 0.
    induction n as [|m IH]; intros lo; [done|].
    cbn [seq map replicate]. by rewrite Htime, IH. }
  destruct (process_samples_total (replicate n x) (vars s) Hwf)
    as (ys & g' & Hrun & Hlen & _).
  destruct (run_window _ _ _ _ Hwf Hrun) as (_ & _ & _ & _ & Htg).
  rewrite length_replicate in Hlen.
  exists ys, g'. split; [done|]. split; [done|].
  split; [by rewrite Htg|].
  rewrite (loops_run n s ys g' Hwf) by (by rewrite Ht, Hsamples).
  rewrite Ht, Htime, Hsamples, <- Ht, <- Htg, set_t_same.
  by rewrite zip_with_replicate_l by lia.
Qed.

(** X12.  From power-on, [setup] followed by [n] passes through [loop]
    never fails.  The calls made are [Serial.begin(115200)],
    [delay(1000)], println of the banner, and then the six calls of each
    pass; the numbers printed after ["Output:"] are, in order, what
    [process_filter] returns from the statically initialised globals on
    the samples [(float) sin(2 * PI * test_freq * t)] taken at
    [t = 0.0], [0.0 + dt], [0.0 + dt + dt], ... *)
Theorem power_on_then_loops n :
  let sample := fun tv : float32 =>
    float_of_double
      (sin (SFmul dprec demax
              (SFmul dprec demax
                 (SFmul dprec demax (binary_normalize dprec demax 2 0 false)
                        PI)
                 (double_of_float dprec demax test_freq))
              (double_of_float dprec demax tv))) in
  let time := fun k => Nat.iter k (fun tv => f_add tv dt) (S754_zero false) in
  let pass := fun x y : float32 =>
    [ Serial_print_str "Input:";
      Serial_print_num
        (SFadd dprec demax (double_of_float dprec demax x)
               (binary_normalize dprec demax 2 0 false));
      Serial_print_str ",";
      Serial_print_str "Output:";
      Serial_println_num (double_of_float dprec demax y);
      Delay 5 ] in
  let xs := map (fun k => sample (time k)) (seq 0 n) in
  exists ys g',
    process_samples xs initial_globals = Some (ys, g') /\
    length ys = n /\
    loops n (setup (Sketch initial_globals [])) =
      Some (Sketch (set_t (time n) g')
                   ([ Serial_begin 115200; Delay 1000;
                      Serial_println_str "2nd Order LPF Simulation Started" ]
                    ++ concat (zip_with pass xs ys))).
Proof.
  intros sample time pass xs.
  pose proof initial_globals_well_formed as Hwf.
  destruct (process_samples_total xs initial_globals Hwf)
    as (ys & g' & Hrun & Hlen & _).
  exists ys, g'. split; [done|]. split.
  - rewrite Hlen. unfold xs. by rewrite length_map, length_seq.
  - exact (loops_run n (setup (Sketch initial_globals [])) ys g' Hwf Hrun).
Qed.

End SketchRuns.

(** [fs], [dt] and [test_freq] are the same [float] numbers whether
    [double] is binary64 or binary32. *)
Lemma sketch_constants_round_alike :
  fs prec64 emax64 = fs prec32 emax32 /\
  dt prec64 emax64 = dt prec32 emax32 /\
  test_freq prec64 emax64 = test_freq prec32 emax32 /\
  dt prec64 emax64 = S754_finite false 13743895 (-38).
Proof. repeat split; vm_compute; reflexivity. Qed.


(** ** Instances of the hypotheses, continued *)

Lemma histories_hold_latest_witness :
  well_formed sample_globals /\
  exists ys g',
    process_samples impulse sample_globals = Some (ys, g') /\
    length ys = length impulse /\
    x_hist g' =
      take (S FILTER_ORDER) (rev impulse ++ x_hist sample_globals) /\
    y_hist g' = take (S FILTER_ORDER) (rev ys ++ y_hist sample_globals) /\
    B_COEFFS g' = B_COEFFS sample_globals /\
    A_COEFFS g' = A_COEFFS sample_globals /\
    t g' = t sample_globals.
Proof.
  assert (Hwf : well_formed sample_globals) by (repeat split; vm_compute; lia).
  split; [exact Hwf|].
  exact (histories_hold_latest impulse sample_globals Hwf).
Defined.

Lemma oldest_slot_is_dead_witness :
  well_formed sample_globals /\
  well_formed sample_globals_other_tail /\
  B_COEFFS sample_globals = B_COEFFS sample_globals_other_tail /\
  A_COEFFS sample_globals = A_COEFFS sample_globals_other_tail /\
  take FILTER_ORDER (x_hist sample_globals) =
    take FILTER_ORDER (x_hist sample_globals_other_tail) /\
  take FILTER_ORDER (y_hist sample_globals) =
    take FILTER_ORDER (y_hist sample_globals_other_tail) /\
  exists y g1' g2',
    process_filter one32 sample_globals = Some (y, g1') /\
    process_filter one32 sample_globals_other_tail = Some (y, g2') /\
    x_hist g1' = x_hist g2' /\ y_hist g1' = y_hist g2'.
Proof.
  assert (Hwf1 : well_formed sample_globals)
    by (repeat split; vm_compute; lia).
  assert (Hwf2 : well_formed sample_globals_other_tail)
    by (repeat split; vm_compute; lia).
  do 2 (split; [assumption|]).
  do 4 (split; [reflexivity|]).
  exact (oldest_slot_is_dead one32 sample_globals sample_globals_other_tail
           Hwf1 Hwf2 eq_refl eq_refl eq_refl eq_refl).
Defined.

Lemma process_filter_in_bounds_iff_witness :
  length (x_hist initial_globals) = S FILTER_ORDER /\
  length (y_hist initial_globals) = S FILTER_ORDER /\
  (is_Some (process_filter one32 initial_globals) <->
   FILTER_ORDER < length (B_COEFFS initial_globals) /\
   FILTER_ORDER < length (A_COEFFS initial_globals)).
Proof.
  do 2 (split; [reflexivity|]).
  exact (process_filter_in_bounds_iff one32 initial_globals eq_refl eq_refl).
Defined.

Lemma run_output_is_recurrence_witness :
  well_formed initial_globals /\
  impulse !! 2 = Some f_zero /\
  exists ys g',
    process_samples impulse initial_globals = Some (ys, g') /\
    ys !! 2 =
      Some (recurrence_output (B_COEFFS initial_globals)
              (A_COEFFS initial_globals)
              (take (S FILTER_ORDER)
                    (rev (take 3 impulse) ++ x_hist initial_globals))
              (f_zero :: take FILTER_ORDER
                 (rev (take 2 ys) ++ y_hist initial_globals))).
Proof.
  assert (Hwf : well_formed initial_globals)
    by (repeat split; vm_compute; lia).
  split; [exact Hwf|]. split; [reflexivity|].
  eexists. eexists.
  assert (Hrun : process_samples impulse initial_globals =
                 Some ([S754_zero false; S754_finite false 10843719 (-29);
                        S754_finite false 9697657 (-28);
                        S754_finite false 12959928 (-28);
                        S754_finite false 15336385 (-28)],
                       sample_globals))
    by (vm_compute; reflexivity).
  split; [exact Hrun|].
  exact (run_output_is_recurrence impulse _ initial_globals _ 2 f_zero
           Hwf Hrun eq_refl).
Defined.

Lemma leading_zeros_only_delay_witness :
  Forall (fun v => is_finite32 v = true) B_COEFFS_init /\
  Forall (fun v => is_finite32 v = true) A_COEFFS_init /\
  FILTER_ORDER < length B_COEFFS_init /\
  FILTER_ORDER < length A_COEFFS_init /\
  exists ys g',
    process_samples impulse (static_init B_COEFFS_init A_COEFFS_init) =
      Some (ys, g') /\
    process_samples (replicate 3 f_zero ++ impulse)
                    (static_init B_COEFFS_init A_COEFFS_init) =
      Some (replicate 3 f_zero ++ ys, g').
Proof.
  assert (Hb : Forall (fun v => is_finite32 v = true) B_COEFFS_init)
    by (repeat constructor).
  assert (Ha : Forall (fun v => is_finite32 v = true) A_COEFFS_init)
    by (repeat constructor).
  assert (Hlb : FILTER_ORDER < length B_COEFFS_init) by (vm_compute; lia).
  assert (Hla : FILTER_ORDER < length A_COEFFS_init) by (vm_compute; lia).
  do 4 (split; [assumption|]).
  eexists. eexists.
  assert (Hrun : process_samples impulse
                   (static_init B_COEFFS_init A_COEFFS_init) =
                 Some ([S754_zero false; S754_finite false 10843719 (-29);
                        S754_finite false 9697657 (-28);
                        S754_finite false 12959928 (-28);
                        S754_finite false 15336385 (-28)],
                       sample_globals))
    by (vm_compute; reflexivity).
  split; [exact Hrun|].
  exact (leading_zeros_only_delay B_COEFFS_init A_COEFFS_init impulse _ _ 3
           Hb Ha Hlb Hla Hrun).
Defined.

Lemma newest_sample_unread_witness :
  well_formed sample_globals /\
  B_COEFFS sample_globals !! 0 = Some (S754_zero false) /\
  is_zero32 (S754_zero false) = true /\
  is_finite32 one32 = true /\
  is_finite32 (S754_finite true 12582912 (-22)) = true /\
  exists y g1 g2,
    process_filter one32 sample_globals = Some (y, g1) /\
    process_filter (S754_finite true 12582912 (-22)) sample_globals =
      Some (y, g2).
Proof.
  assert (Hwf : well_formed sample_globals) by (repeat split; vm_compute; lia).
  split; [exact Hwf|].
  do 4 (split; [reflexivity|]).
  exact (newest_sample_unread_when_B0_is_zero
           one32 (S754_finite true 12582912 (-22)) (S754_zero false)
           sample_globals Hwf eq_refl eq_refl eq_refl eq_refl).
Defined.

Lemma nan_sample_poisons_run_witness :
  well_formed sample_globals /\
  exists ys g',
    process_samples (S754_nan :: impulse) sample_globals = Some (ys, g') /\
    Forall (fun y => y = S754_nan) ys.
Proof.
  assert (Hwf : well_formed sample_globals) by (repeat split; vm_compute; lia).
  split; [exact Hwf|].
  exact (nan_sample_poisons_run impulse sample_globals Hwf).
Defined.

Lemma loops_feed_the_filter_witness :
  well_formed (vars (Sketch initial_globals [])) /\
  exists ys g',
    process_samples
      (samples_from prec64 emax64 PI64 sin_stand_in
                    (t (vars (Sketch initial_globals []))) 3)
      (vars (Sketch initial_globals [])) = Some (ys, g') /\
    length ys = 3 /\
    loops prec64 emax64 PI64 sin_stand_in 3 (Sketch initial_globals []) =
      Some (Sketch
              (set_t (time_after prec64 emax64
                        (t (vars (Sketch initial_globals []))) 3) g')
              (calls (Sketch initial_globals []) ++
               concat (zip_with (loop_calls prec64 emax64)
                         (samples_from prec64 emax64 PI64 sin_stand_in
                            (t (vars (Sketch initial_globals []))) 3)
                         ys))).
Proof.
  assert (Hwf : well_formed (vars (Sketch initial_globals [])))
    by (repeat split; vm_compute; lia).
  split; [exact Hwf|].
  exact (loops_feed_the_filter prec64 emax64 PI64 sin_stand_in 3
           (Sketch initial_globals []) Hwf).
Defined.

Lemma clock_is_stuck_witness :
  ((prec64 = 53%Z /\ emax64 = 1024%Z) \/
   (prec64 = 24%Z /\ emax64 = 128%Z)) /\
  well_formed (vars stuck_sketch) /\
  t (vars stuck_sketch) = S754_finite false 8388608 (-13) /\
  exists ys g',
    process_samples
      (replicate 4 (input_sample prec64 emax64 PI64 sin_stand_in
                                 (S754_finite false 8388608 (-13))))
      (vars stuck_sketch) = Some (ys, g') /\
    length ys = 4 /\
    t g' = S754_finite false 8388608 (-13) /\
    loops prec64 emax64 PI64 sin_stand_in 4 stuck_sketch =
      Some (Sketch g'
              (calls stuck_sketch ++
               concat (map (loop_calls prec64 emax64
                              (input_sample prec64 emax64 PI64 sin_stand_in
                                 (S754_finite false 8388608 (-13))))
                           ys))).
Proof.
  assert (Hfmt : (prec64 = 53%Z /\ emax64 = 1024%Z) \/
                 (prec64 = 24%Z /\ emax64 = 128%Z))
    by (left; split; reflexivity).
  assert (Hwf : well_formed (vars stuck_sketch))
    by (repeat split; vm_compute; lia).
  split; [exact Hfmt|]. split; [exact Hwf|]. split; [reflexivity|].
  exact (clock_is_stuck_at_1024 prec64 emax64 PI64 sin_stand_in 4
           stuck_sketch Hfmt Hwf eq_refl).
Defined.

